(** * Stereo reconstruction pipeline: camera rig, DLT triangulation,
      correspondence filtering, disparity-to-depth and calibration store.

    A shallow embedding of [utils/stereo_utils.py],
    [utils/triangulate_3d_pose.py] and [utils/camera_calibration.py], with
    the keypoint mirror of [utils/simulate_second_view.py] and the frame
    recording of [src/main.py] and [src/pose_estimation.py] that feed them.

    Numbers are idealised: a Python/NumPy float is a real number, extended
    with the two non-finite classes a float division can produce.  The
    external numerical routines ([np.linalg.svd], the OpenCV detector and
    solver) are parameters of the definitions that call them. *)

From Stdlib Require Import Reals Lra Lia List String ZArith Bool Arith.
From Stdlib Require Import DecimalString DecimalNat.
Import ListNotations.

Set Warnings "-register-all".

Open Scope R_scope.

(* ================================================================== *)
(** * NumPy values *)
(* ================================================================== *)

Module Numpy.

(** The result of a float64 division.  [Inf] stands for an infinity of
    either sign, [NaN] for not-a-number.  Floats are idealised as reals:
    [Fin r] is the exact quotient, so rounding, overflow to [inf] and
    underflow are not represented. *)
Inductive xfloat : Type :=
| Fin (r : R)
| Inf
| NaN.

Definition is_finite (x : xfloat) : Prop :=
  match x with Fin _ => True | _ => False end.

(** [a / b] on float64 operands: NumPy does not raise on a zero divisor,
    it yields [inf] (non-zero numerator) or [nan] (zero numerator). *)
Definition fdiv (a b : R) : xfloat :=
  if Req_dec_T b 0 then (if Req_dec_T a 0 then NaN else Inf)
  else Fin (a / b).

(** A length-4 row (one row of a 3x4 camera matrix or of the DLT system). *)
Record vec4 : Type := mk_vec4 { c0 : R; c1 : R; c2 : R; c3 : R }.

(** [s * u - v], elementwise, as NumPy broadcasts it. *)
Definition scale_sub (s : R) (u v : vec4) : vec4 :=
  mk_vec4 (s * c0 u - c0 v) (s * c1 u - c1 v)
          (s * c2 u - c2 v) (s * c3 u - c3 v).

Definition dot (u v : vec4) : R :=
  c0 u * c0 v + c1 u * c1 v + c2 u * c2 v + c3 u * c3 v.

(** A 3x4 camera matrix, indexed by row as [M[0]], [M[1]], [M[2]]. *)
Record cam_matrix : Type := mk_cam { row0 : vec4; row1 : vec4; row2 : vec4 }.

(** The 4x4 coefficient matrix of the DLT system. *)
Record mat4 : Type := mk_mat4 { a0 : vec4; a1 : vec4; a2 : vec4; a3 : vec4 }.

Definition mat_vec (A : mat4) (v : vec4) : vec4 :=
  mk_vec4 (dot (a0 A) v) (dot (a1 A) v) (dot (a2 A) v) (dot (a3 A) v).

Definition norm2 (v : vec4) : R := dot v v.

Definition scale (s : R) (v : vec4) : vec4 :=
  mk_vec4 (s * c0 v) (s * c1 v) (s * c2 v) (s * c3 v).

Definition zero4 : vec4 := mk_vec4 0 0 0 0.

(** What [np.linalg.svd(A)] promises about [Vt[-1]]: a unit right-singular
    vector for the smallest singular value, that is, a unit vector that
    minimises [|A w|] over all unit vectors [w]. *)
Definition last_right_singular (A : mat4) (v : vec4) : Prop :=
  norm2 v = 1 /\ forall w, norm2 w = 1 -> norm2 (mat_vec A v) <= norm2 (mat_vec A w).

(** A 2D pixel position, [np.array([x, y])]. *)
Definition point2 : Type := (R * R)%type.

(** A dehomogenised 3D point, [X[:3]] after [X / X[3]]. *)
Definition point3 : Type := (xfloat * xfloat * xfloat)%type.

(** [X / X[3]] followed by [X[:3]]. *)
Definition dehomogenize (X : vec4) : point3 :=
  (fdiv (c0 X) (c3 X), fdiv (c1 X) (c3 X), fdiv (c2 X) (c3 X)).

End Numpy.

Import Numpy.

(* ================================================================== *)
(** * utils/stereo_utils.py *)
(* ================================================================== *)

Module StereoUtils.

(** [create_stereo_camera_matrices(baseline, focal_length, cx, cy)]. *)
Definition create_stereo_camera_matrices (baseline focal_length cx cy : R)
  : cam_matrix * cam_matrix :=
  let left_camera_matrix :=
    mk_cam (mk_vec4 focal_length 0 cx 0)
           (mk_vec4 0 focal_length cy 0)
           (mk_vec4 0 0 1 0) in
  let right_camera_matrix :=
    mk_cam (mk_vec4 focal_length 0 cx (- focal_length * baseline))
           (mk_vec4 0 focal_length cy 0)
           (mk_vec4 0 0 1 0) in
  (left_camera_matrix, right_camera_matrix).

(** The matrix [A] built inside the loop of [triangulate_points]. *)
Definition linear_system (pt_left pt_right : point2)
           (camera_matrix_left camera_matrix_right : cam_matrix) : mat4 :=
  mk_mat4
    (scale_sub (fst pt_left) (row2 camera_matrix_left) (row0 camera_matrix_left))
    (scale_sub (snd pt_left) (row2 camera_matrix_left) (row1 camera_matrix_left))
    (scale_sub (fst pt_right) (row2 camera_matrix_right) (row0 camera_matrix_right))
    (scale_sub (snd pt_right) (row2 camera_matrix_right) (row1 camera_matrix_right)).

Section WithSvd.

(** [svd_Vt_last A] is [np.linalg.svd(A)[2][-1]]. *)
Variable svd_Vt_last : mat4 -> vec4.

(** [triangulate_points]: the loop over [zip(points_left, points_right)]
    appending [X[:3]] to [points_3d]. *)
Definition triangulate_points (points_left points_right : list point2)
           (camera_matrix_left camera_matrix_right : cam_matrix)
  : list point3 :=
  fold_left
    (fun points_3d '(pt_left, pt_right) =>
       let A := linear_system pt_left pt_right
                              camera_matrix_left camera_matrix_right in
       let X := svd_Vt_last A in
       points_3d ++ [dehomogenize X])
    (combine points_left points_right) [].

End WithSvd.

(** A disparity map: a 2D grid whose element type is fixed by the array's
    dtype.  Block matching returns a 16-bit integer map; a caller may also
    pass a floating-point one. *)
Inductive disparity_map : Type :=
| IntMap (rows : list (list Z))
| FloatMap (rows : list (list R)).

(** [disparity_masked[disparity_masked == 0] = 0.1]: the assigned value is
    cast to the array's dtype, so an integer array stores [int(0.1) = 0]. *)
Definition mask_zero_float (d : R) : R :=
  if Req_dec_T d 0 then 1 / 10 else d.

Definition mask_zero_int (d : Z) : Z :=
  if Z.eqb d 0 then 0%Z else d.

(** [depth_from_disparity(disparity, baseline, focal_length)]. *)
Definition depth_from_disparity (disparity : disparity_map)
           (baseline focal_length : R) : list (list xfloat) :=
  match disparity with
  | FloatMap rows =>
      let disparity_masked := map (map mask_zero_float) rows in
      map (map (fun d => fdiv (baseline * focal_length) d)) disparity_masked
  | IntMap rows =>
      let disparity_masked := map (map mask_zero_int) rows in
      map (map (fun d => fdiv (baseline * focal_length) (IZR d))) disparity_masked
  end.

End StereoUtils.

(* ================================================================== *)
(** * Python dictionaries *)
(* ================================================================== *)

(** A Python [dict] with string keys keeps insertion order, so it is an
    association list; a well-formed one has no repeated key. *)
Module PyDict.

Definition dict (V : Type) : Type := list (string * V).

Definition keys {V : Type} (d : dict V) : list string := map fst d.

Definition wf {V : Type} (d : dict V) : Prop := NoDup (keys d).

(** [d[k]], [None] standing for [KeyError]. *)
Fixpoint get {V : Type} (k : string) (d : dict V) : option V :=
  match d with
  | [] => None
  | (k', v) :: rest => if String.eqb k k' then Some v else get k rest
  end.

(** [k in d]. *)
Definition mem {V : Type} (k : string) (d : dict V) : bool :=
  match get k d with Some _ => true | None => false end.

(** [d[k] = v]: an existing key keeps its position, a new key goes last. *)
Fixpoint set {V : Type} (k : string) (v : V) (d : dict V) : dict V :=
  match d with
  | [] => [(k, v)]
  | (k', v') :: rest =>
      if String.eqb k k' then (k, v) :: rest else (k', v') :: set k v rest
  end.

End PyDict.

(* ================================================================== *)
(** * utils/triangulate_3d_pose.py *)
(* ================================================================== *)

Module Triangulate3dPose.

Import PyDict.

(** One detected joint of a session file: [{"x":, "y":, "z":, "vis":}]. *)
Record keypoint : Type := mk_keypoint { x : R; y : R; z : R; vis : R }.

(** One triangulated joint: [{"X":, "Y":, "Z":}]. *)
Record joint3d : Type :=
  mk_joint3d { coord_X : xfloat; coord_Y : xfloat; coord_Z : xfloat }.

Definition frame : Type := dict keypoint.

(** The matrix [A] built by [triangulate_point]. *)
Definition linear_system (p1 p2 : point2) (cam_matrix1 cam_matrix2 : cam_matrix)
  : mat4 :=
  mk_mat4
    (scale_sub (fst p1) (row2 cam_matrix1) (row0 cam_matrix1))
    (scale_sub (snd p1) (row2 cam_matrix1) (row1 cam_matrix1))
    (scale_sub (fst p2) (row2 cam_matrix2) (row0 cam_matrix2))
    (scale_sub (snd p2) (row2 cam_matrix2) (row1 cam_matrix2)).

Section WithSvd.

(** [svd_Vt_last A] is [np.linalg.svd(A)[2][-1]]. *)
Variable svd_Vt_last : mat4 -> vec4.

(** [triangulate_point(p1, p2, cam_matrix1, cam_matrix2)].  The division
    by [X[3]] is unconditional and the function has no [raise]. *)
Definition triangulate_point (p1 p2 : point2)
           (cam_matrix1 cam_matrix2 : cam_matrix) : point3 :=
  let A := linear_system p1 p2 cam_matrix1 cam_matrix2 in
  let X := svd_Vt_last A in
  dehomogenize X.

(** The body of the outer loop of [triangulate_all_frames]: the inner
    loop over [frame1.keys()] filling [joints_3d]. *)
Definition triangulate_frame (frame1 frame2 : frame)
           (cam_matrix1 cam_matrix2 : cam_matrix) : dict joint3d :=
  fold_left
    (fun joints_3d joint_name =>
       if negb (mem joint_name frame2) then joints_3d (* continue *)
       else
         match get joint_name frame1, get joint_name frame2 with
         | Some k1, Some k2 =>
             let p1 := (x k1, y k1) in
             let p2 := (x k2, y k2) in
             let '(pX, pY, pZ) :=
               triangulate_point p1 p2 cam_matrix1 cam_matrix2 in
             set joint_name (mk_joint3d pX pY pZ) joints_3d
         | _, _ => joints_3d
         end)
    (keys frame1) [].

(** [triangulate_all_frames(view1_data, view2_data, cam_matrix1,
    cam_matrix2)]: the loop over [zip(view1_data, view2_data)]. *)
Definition triangulate_all_frames (view1_data view2_data : list frame)
           (cam_matrix1 cam_matrix2 : cam_matrix) : list (dict joint3d) :=
  fold_left
    (fun triangulated_poses '(frame1, frame2) =>
       triangulated_poses
         ++ [triangulate_frame frame1 frame2 cam_matrix1 cam_matrix2])
    (combine view1_data view2_data) [].

End WithSvd.

End Triangulate3dPose.

(* ================================================================== *)
(** * utils/camera_calibration.py *)
(* ================================================================== *)

Module CameraCalibration.

(** A value as [json.load] returns it and [json.dump] writes it. *)
Inductive pyval : Type :=
| PNone
| PBool (b : bool)
| PInt (n : Z)
| PFloat (r : R)
| PStr (s : string)
| PList (l : list pyval)
| PDict (d : list (string * pyval)).

(** An [ndarray]: its shape and its elements in row-major order. *)
Record ndarray : Type := mk_ndarray { shape : list nat; items : list pyval }.

Definition shape_eqb (s t : list nat) : bool :=
  if list_eq_dec Nat.eq_dec s t then true else false.

(** [np.array(v)].  A scalar gives a 0-d array and a rectangular nesting
    of lists an array of that shape, whatever the element type: strings
    are accepted.  [None] stands for the [ValueError] raised on a ragged
    nesting. *)
Fixpoint np_array (v : pyval) : option ndarray :=
  match v with
  | PList l =>
      let fix each (l : list pyval) : option (list ndarray) :=
        match l with
        | [] => Some []
        | e :: rest =>
            match np_array e, each rest with
            | Some a, Some rs => Some (a :: rs)
            | _, _ => None
            end
        end in
      match each l with
      | None => None
      | Some [] => Some (mk_ndarray [0%nat] [])
      | Some (a :: rs) =>
          if forallb (fun b => shape_eqb (shape b) (shape a)) rs
          then Some (mk_ndarray (List.length l :: shape a)
                                (List.concat (map items (a :: rs))))
          else None
      end
  | _ => Some (mk_ndarray [] [v])
  end.

Fixpoint chunks {A : Type} (n size : nat) (l : list A) : list (list A) :=
  match n with
  | O => []
  | S n' => firstn size l :: chunks n' size (skipn size l)
  end.

(** [a.tolist()]. *)
Fixpoint tolist_items (sh : list nat) (its : list pyval) : pyval :=
  match sh with
  | [] => hd PNone its
  | n :: rest =>
      PList (map (tolist_items rest) (chunks n (fold_right Nat.mul 1%nat rest) its))
  end.

Definition tolist (a : ndarray) : pyval := tolist_items (shape a) (items a).

(** [a.shape[0:2]], written by [json.dump] as a list of integers. *)
Definition shape_0_2 (a : ndarray) : pyval :=
  PList (map (fun n => PInt (Z.of_nat n)) (firstn 2 (shape a))).

(** The exceptions the modelled statements can raise.  A [KeyError] carries
    the missing key, which is what its text shows. *)
Inductive py_exn : Type :=
| KeyError (key : string)
| TypeError
| IndexError
| ValueError
| AttributeError
| OSError.

(** [data[key]] for a string key. *)
Definition getitem (data : pyval) (key : string) : py_exn + pyval :=
  match data with
  | PDict d =>
      match PyDict.get key d with
      | Some v => inr v
      | None => inl (KeyError key)
      end
  | _ => inl TypeError
  end.

(** The instance attributes of [CameraCalibrator]. *)
Record CameraCalibrator : Type := mk_calibrator {
  chessboard_size : nat * nat;
  square_size : R;
  objp : ndarray;
  objpoints : list ndarray;
  imgpoints : list ndarray;
  camera_matrix : option ndarray;
  dist_coeffs : option ndarray;
  rvecs : option (list ndarray);
  tvecs : option (list ndarray)
}.

(** What a method does to the outside world, in order.  [PrintExn prefix e]
    is [print(f"{prefix}{e}")]: the prefix followed by the text of the
    exception [e]. *)
Inductive event : Type :=
| Print (msg : string)
| PrintExn (prefix : string) (e : py_exn)
| CalibrateCamera (object_points image_points : list ndarray) (size : nat * nat)
| WriteFile (filename : string) (content : pyval).

Record state : Type := mk_state { self : CameraCalibrator; trace : list event }.

(** A method body: it updates the object and the trace, and either
    returns or raises; what it did before raising stays done. *)
Definition M (A : Type) : Type := state -> state * (py_exn + A).

Definition ret {A : Type} (a : A) : M A := fun s => (s, inr a).

Definition raise {A : Type} (e : py_exn) : M A := fun s => (s, inl e).

Definition bind {A B : Type} (m : M A) (k : A -> M B) : M B :=
  fun s =>
    match m s with
    | (s', inr a) => k a s'
    | (s', inl e) => (s', inl e)
    end.

(** [try: body except Exception: handler]. *)
Definition try_except {A : Type} (body : M A) (handler : py_exn -> M A) : M A :=
  fun s =>
    match body s with
    | (s', inl e) => handler e s'
    | r => r
    end.

Definition get_self : M CameraCalibrator := fun s => (s, inr (self s)).

Definition update (f : CameraCalibrator -> CameraCalibrator) : M unit :=
  fun s => (mk_state (f (self s)) (trace s), inr tt).

Definition emit (e : event) : M unit :=
  fun s => (mk_state (self s) (trace s ++ [e]), inr tt).

Definition lift {A : Type} (r : py_exn + A) : M A := fun s => (s, r).

Declare Scope py_scope.
Delimit Scope py_scope with py.
Notation "x <- m ;; k" := (bind m (fun x => k))
  (at level 61, m at next level, right associativity) : py_scope.
Notation "m ;;; k" := (bind m (fun _ => k))
  (at level 61, right associativity) : py_scope.

Definition set_camera_matrix (v : option ndarray) (c : CameraCalibrator) :=
  mk_calibrator (chessboard_size c) (square_size c) (objp c) (objpoints c)
                (imgpoints c) v (dist_coeffs c) (rvecs c) (tvecs c).

Definition set_dist_coeffs (v : option ndarray) (c : CameraCalibrator) :=
  mk_calibrator (chessboard_size c) (square_size c) (objp c) (objpoints c)
                (imgpoints c) (camera_matrix c) v (rvecs c) (tvecs c).

Definition set_rvecs (v : option (list ndarray)) (c : CameraCalibrator) :=
  mk_calibrator (chessboard_size c) (square_size c) (objp c) (objpoints c)
                (imgpoints c) (camera_matrix c) (dist_coeffs c) v (tvecs c).

Definition set_tvecs (v : option (list ndarray)) (c : CameraCalibrator) :=
  mk_calibrator (chessboard_size c) (square_size c) (objp c) (objpoints c)
                (imgpoints c) (camera_matrix c) (dist_coeffs c) (rvecs c) v.

Definition append_points (o i : ndarray) (c : CameraCalibrator) :=
  mk_calibrator (chessboard_size c) (square_size c) (objp c)
                (objpoints c ++ [o]) (imgpoints c ++ [i])
                (camera_matrix c) (dist_coeffs c) (rvecs c) (tvecs c).

(** The chessboard template of [__init__]: corner [(i, j, 0)] scaled by
    [square_size], [i] running fastest. *)
Definition make_objp (size : nat * nat) (square : R) : ndarray :=
  mk_ndarray
    [(fst size * snd size)%nat; 3%nat]
    (flat_map
       (fun j => flat_map
                   (fun i => [PFloat (INR i * square);
                              PFloat (INR j * square);
                              PFloat (0 * square)])
                   (seq 0 (fst size)))
       (seq 0 (snd size))).

(** [CameraCalibrator(chessboard_size, square_size)]. *)
Definition init (size : nat * nat) (square : R) : CameraCalibrator :=
  mk_calibrator size square (make_objp size square) [] [] None None None None.

(** The corner array OpenCV hands back, with the shape [(N, 1, 2)] of the
    OpenCV 4 bindings. *)
Definition corners_array (corners : list (R * R)) : ndarray :=
  mk_ndarray [List.length corners; 1%nat; 2%nat]
             (flat_map (fun p => [PFloat (fst p); PFloat (snd p)]) corners).

Section WithOpenCV.

Local Open Scope py_scope.

Variable image : Type.

(** [cv2.cvtColor(image, cv2.COLOR_BGR2GRAY)]. *)
Variable cvtColor_gray : image -> image.

(** [cv2.findChessboardCorners(gray, size, None)]: [None] when [ret] is
    false, the detected corners otherwise. *)
Variable findChessboardCorners : image -> nat * nat -> option (list (R * R)).

(** [cv2.cornerSubPix(gray, corners, (11, 11), (-1, -1), criteria)]. *)
Variable cornerSubPix : image -> list (R * R) -> list (R * R).

(** [cv2.drawChessboardCorners(image, size, corners, ret)]. *)
Variable drawChessboardCorners : image -> nat * nat -> list (R * R) -> image.

(** [cv2.calibrateCamera(objpoints, imgpoints, size, None, None)]. *)
Variable calibrateCamera :
  list ndarray -> list ndarray -> nat * nat ->
  R * ndarray * ndarray * list ndarray * list ndarray.

(** [add_calibration_image(self, image)], returning [(ret, image)]. *)
Definition add_calibration_image (img : image) : M (bool * image) :=
  c <- get_self ;;
  let gray := cvtColor_gray img in
  match findChessboardCorners gray (chessboard_size c) with
  | Some corners =>
      let corners := cornerSubPix gray corners in
      update (append_points (objp c) (corners_array corners)) ;;;
      ret (true, drawChessboardCorners img (chessboard_size c) corners)
  | None => ret (false, img)
  end.

(** [calibrate(self, image_shape)]: [False], or the solver's [ret]. *)
Definition calibrate (image_shape : nat * nat) : M pyval :=
  c <- get_self ;;
  if (List.length (objpoints c) <? 5)%nat then
    emit (Print "Need at least 5 calibration images") ;;;
    ret (PBool false)
  else
    let size := (snd image_shape, fst image_shape) in
    emit (CalibrateCamera (objpoints c) (imgpoints c) size) ;;;
    let '(r, cm, dc, rv, tv) :=
      calibrateCamera (objpoints c) (imgpoints c) size in
    update (set_camera_matrix (Some cm)) ;;;
    update (set_dist_coeffs (Some dc)) ;;;
    update (set_rvecs (Some rv)) ;;;
    update (set_tvecs (Some tv)) ;;;
    ret (PFloat r).

End WithOpenCV.

Local Open Scope py_scope.

(** [x.tolist()] on an attribute that may still be [None]. *)
Definition attr_tolist (a : option ndarray) : M pyval :=
  match a with
  | Some arr => ret (tolist arr)
  | None => raise AttributeError
  end.

(** [l[0]]. *)
Definition first_item {A : Type} (l : list A) : M A :=
  match l with
  | a :: _ => ret a
  | [] => raise IndexError
  end.

(** [save_calibration(self, filename)]. *)
Definition save_calibration (filename : string) : M bool :=
  c <- get_self ;;
  match camera_matrix c with
  | None =>
      emit (Print "No calibration data to save") ;;;
      ret false
  | Some cm =>
      dc <- attr_tolist (dist_coeffs c) ;;
      i0 <- first_item (imgpoints c) ;;
      let calibration_data :=
        PDict [("camera_matrix"%string, tolist cm);
               ("dist_coeffs"%string, dc);
               ("image_shape"%string, shape_0_2 i0)] in
      emit (WriteFile filename calibration_data) ;;;
      ret true
  end.

(** [np.array(v)] as a statement. *)
Definition np_array_m (v : pyval) : M ndarray :=
  match np_array v with
  | Some a => ret a
  | None => raise ValueError
  end.

(** [load_calibration(self, filename)].  [file] is what
    [json.load(open(filename))] gives: the parsed content, or the
    exception raised for a missing or unparsable file. *)
Definition load_calibration (file : py_exn + pyval) : M bool :=
  try_except
    (data <- lift file ;;
     cmv <- lift (getitem data "camera_matrix") ;;
     cm <- np_array_m cmv ;;
     update (set_camera_matrix (Some cm)) ;;;
     dcv <- lift (getitem data "dist_coeffs") ;;
     dc <- np_array_m dcv ;;
     update (set_dist_coeffs (Some dc)) ;;;
     ret true)
    (fun e =>
       emit (PrintExn "Error loading calibration: " e) ;;;
       ret false).

End CameraCalibration.

(** A calibration session with stand-ins for the OpenCV routines: images of
    480 x 640 pixels on which the detector always finds the full 9 x 6
    board, and a solver that returns a fixed model. *)
Module CalibrationScenario.

Import CameraCalibration.
Local Open Scope py_scope.

(** An image is known by its [(height, width)]. *)
Definition image : Type := (nat * nat)%type.

Definition cvtColor_gray (img : image) : image := img.

Definition findChessboardCorners (gray : image) (size : nat * nat)
  : option (list (R * R)) :=
  Some (map (fun i => (INR i, 0)) (seq 0 (fst size * snd size))).

Definition cornerSubPix (gray : image) (corners : list (R * R)) : list (R * R) :=
  corners.

Definition drawChessboardCorners (img : image) (size : nat * nat)
           (corners : list (R * R)) : image := img.

Definition solved_camera_matrix : ndarray :=
  mk_ndarray [3%nat; 3%nat]
             [PFloat 640; PFloat 0; PFloat 320;
              PFloat 0; PFloat 640; PFloat 240;
              PFloat 0; PFloat 0; PFloat 1].

Definition solved_dist_coeffs : ndarray :=
  mk_ndarray [1%nat; 5%nat] [PFloat 0; PFloat 0; PFloat 0; PFloat 0; PFloat 0].

Definition calibrateCamera (object_points image_points : list ndarray)
           (size : nat * nat)
  : R * ndarray * ndarray * list ndarray * list ndarray :=
  (1 / 2, solved_camera_matrix, solved_dist_coeffs, [], []).

Definition add (img : image) : M (bool * image) :=
  add_calibration_image image cvtColor_gray findChessboardCorners
                        cornerSubPix drawChessboardCorners img.

(** Feed [n] images to a fresh default calibrator. *)
Fixpoint add_images (n : nat) : M unit :=
  match n with
  | O => ret tt
  | S n' => add_images n' ;;; add (480%nat, 640%nat) ;;; ret tt
  end.

Definition fresh : state := mk_state (init (9%nat, 6%nat) (5 / 2)) [].

(** [n] accepted images, then [calibrate((480, 640))]. *)
Definition calibrate_after (n : nat) : state * (py_exn + pyval) :=
  (add_images n ;;; calibrate calibrateCamera (480%nat, 640%nat)) fresh.

(** Five accepted images, [calibrate((480, 640))], then
    [save_calibration("camera_calibration.json")]. *)
Definition calibrate_and_save : state * (py_exn + bool) :=
  (add_images 5 ;;;
   calibrate calibrateCamera (480%nat, 640%nat) ;;;
   save_calibration "camera_calibration.json") fresh.

(** The content of the last file written. *)
Definition last_written (t : list event) : option pyval :=
  fold_left (fun r e => match e with WriteFile _ c => Some c | _ => r end) t None.

(** A calibrator that already holds a calibration. *)
Definition calibrated : state :=
  mk_state (set_dist_coeffs (Some solved_dist_coeffs)
              (set_camera_matrix (Some solved_camera_matrix)
                 (init (9%nat, 6%nat) (5 / 2)))) [].

(** A calibration file whose two entries are strings. *)
Definition non_numeric_file : pyval :=
  PDict [("camera_matrix"%string, PStr "abc");
         ("dist_coeffs"%string, PStr "xyz");
         ("image_shape"%string, PList [PInt 480; PInt 640])].

(** A calibration file without the ["camera_matrix"] key. *)
Definition missing_key_file : pyval :=
  PDict [("dist_coeffs"%string, PList [PList [PFloat 0; PFloat 0]]);
         ("image_shape"%string, PList [PInt 480; PInt 640])].

End CalibrationScenario.

(* ================================================================== *)
(** * Pinhole projection *)
(* ================================================================== *)

Module Pinhole.

(** Modelled from the spec: the homogeneous coordinates [(X, Y, Z, 1)] of
    a 3D point. *)
Definition homogeneous (P : R * R * R) : vec4 :=
  let '(pX, pY, pZ) := P in mk_vec4 pX pY pZ 1.

(** Modelled from the spec: the third homogeneous coordinate of
    [M (X, Y, Z, 1)]; the projection of [P] is well defined when it is not
    zero.  The repository has no projection routine. *)
Definition depth (M : cam_matrix) (P : R * R * R) : R :=
  dot (row2 M) (homogeneous P).

(** Modelled from the spec: the image of [P] under the camera matrix [M],
    that is [M (X, Y, Z, 1)] divided by its last coordinate (the pinhole
    model the camera matrices are built for). *)
Definition project (M : cam_matrix) (P : R * R * R) : point2 :=
  (dot (row0 M) (homogeneous P) / depth M P,
   dot (row1 M) (homogeneous P) / depth M P).

End Pinhole.

(* ================================================================== *)
(** * utils/simulate_second_view.py and the keypoint helpers of
      utils/stereo_utils.py *)
(* ================================================================== *)

Module SimulateSecondView.

Import PyDict Triangulate3dPose.

(** [flip_keypoints_horizontally(keypoints, frame_width)]: the loop over
    [keypoints.items()] filling [flipped]. *)
Definition flip_keypoints_horizontally (keypoints : frame) (frame_width : R)
  : frame :=
  fold_left
    (fun flipped '(joint, coords) =>
       let x_flipped := frame_width - x coords in
       set joint (mk_keypoint x_flipped (y coords) (z coords) (vis coords)) flipped)
    keypoints [].

(** The data [simulate_second_view(json_path, frame_width)] writes to the
    flipped file: the loop over [original_data] appending one flipped frame
    per frame. *)
Definition simulate_second_view (original_data : list frame) (frame_width : R)
  : list frame :=
  fold_left
    (fun flipped_data frame =>
       flipped_data ++ [flip_keypoints_horizontally frame frame_width])
    original_data [].

End SimulateSecondView.

Module StereoUtilsKeypoints.

Import PyDict Triangulate3dPose.

(** [simulate_second_view(keypoints, frame_width, flip_horizontally)] of
    [stereo_utils.py].  The vertical branch uses its own constant height
    480 and does not read [frame_width]. *)
Definition simulate_second_view (keypoints : frame) (frame_width : R)
           (flip_horizontally : bool) : frame :=
  if flip_horizontally then
    fold_left
      (fun flipped '(joint, coords) =>
         set joint
             (mk_keypoint (frame_width - x coords) (y coords) (z coords) (vis coords))
             flipped)
      keypoints []
  else
    let frame_height := 480 in
    fold_left
      (fun flipped '(joint, coords) =>
         set joint
             (mk_keypoint (x coords) (frame_height - y coords) (z coords) (vis coords))
             flipped)
      keypoints [].

End StereoUtilsKeypoints.

(* ================================================================== *)
(** * Python string formatting and truth values *)
(* ================================================================== *)

Module PyFormat.

(** [f"{n}"] for a non-negative integer: its decimal digits. *)
Definition string_of_nat (n : nat) : string :=
  NilEmpty.string_of_uint (Nat.to_uint n).

(** [bool(v)]: what [if v:] tests. *)
Definition truthy (v : CameraCalibration.pyval) : bool :=
  match v with
  | CameraCalibration.PNone => false
  | CameraCalibration.PBool b => b
  | CameraCalibration.PInt n => negb (Z.eqb n 0)
  | CameraCalibration.PFloat r => if Req_dec_T r 0 then false else true
  | CameraCalibration.PStr s => negb (String.eqb s "")
  | CameraCalibration.PList l => match l with [] => false | _ => true end
  | CameraCalibration.PDict d => match d with [] => false | _ => true end
  end.

End PyFormat.

(* ================================================================== *)
(** * utils/camera_calibration.py: calibration from a directory *)
(* ================================================================== *)

Module CalibrationBatch.

Import CameraCalibration PyFormat.
Local Open Scope py_scope.
Local Open Scope string_scope.

Definition is_print (e : event) : Prop :=
  match e with Print _ => True | _ => False end.

Section WithOpenCV.

Variable image : Type.
Variable cvtColor_gray : image -> image.
Variable findChessboardCorners : image -> nat * nat -> option (list (R * R)).
Variable cornerSubPix : image -> list (R * R) -> list (R * R).
Variable drawChessboardCorners : image -> nat * nat -> list (R * R) -> image.
Variable calibrateCamera :
  list ndarray -> list ndarray -> nat * nat ->
  R * ndarray * ndarray * list ndarray * list ndarray.

(** [cv2.imread(path)]: [None] when the file cannot be read. *)
Variable imread : string -> option image.

(** [image.shape[:2]], the height and width. *)
Variable shape_hw : image -> nat * nat.

(** [cv2.undistort(image, camera_matrix, dist_coeffs, None, camera_matrix)]. *)
Variable undistort : image -> ndarray -> option ndarray -> image.

(** [undistort_image(self, image)]. *)
Definition undistort_image (img : image) : M image :=
  c <- get_self ;;
  match camera_matrix c with
  | None =>
      emit (Print "No calibration data available") ;;;
      ret img
  | Some cm => ret (undistort img cm (dist_coeffs c))
  end.

(** The loop of [calibrate_from_images] over [image_paths], returning
    [successful_images]. *)
Fixpoint process_images (image_paths : list string) (total successful_images : nat)
  : M nat :=
  match image_paths with
  | [] => ret successful_images
  | img_path :: rest =>
      match imread img_path with
      | None =>
          emit (Print ("Could not read " ++ img_path)) ;;;
          process_images rest total successful_images
      | Some img =>
          r <- add_calibration_image image cvtColor_gray findChessboardCorners
                                     cornerSubPix drawChessboardCorners img ;;
          if fst r then
            let successful_images := S successful_images in
            emit (Print ("Processed " ++ img_path ++ " - "
                           ++ string_of_nat successful_images ++ "/"
                           ++ string_of_nat total)) ;;;
            process_images rest total successful_images
          else
            emit (Print ("Could not find chessboard in " ++ img_path)) ;;;
            process_images rest total successful_images
      end
  end.

(** [cv2.imread(path).shape[:2]]: an unreadable file gives [None], which
    has no [shape]. *)
Definition imread_shape (path : string) : M (nat * nat) :=
  match imread path with
  | Some img => ret (shape_hw img)
  | None => raise AttributeError
  end.

(** [calibrate_from_images(image_dir, output_file, chessboard_size,
    square_size)].  [image_paths] is what the two [glob.glob] calls return,
    the [.jpg] files followed by the [.png] files; the local [calibrator]
    is the object of the state. *)
Definition calibrate_from_images (image_dir output_file : string)
           (chessboard_size : nat * nat) (square_size : R)
           (image_paths : list string) : M bool :=
  update (fun _ => init chessboard_size square_size) ;;;
  match image_paths with
  | [] =>
      emit (Print ("No images found in " ++ image_dir)) ;;;
      ret false
  | first_path :: _ =>
      emit (Print ("Found " ++ string_of_nat (List.length image_paths)
                     ++ " images for calibration")) ;;;
      successful_images <- process_images image_paths (List.length image_paths) 0 ;;
      if (successful_images <? 5)%nat then
        emit (Print "Not enough successful calibration images") ;;;
        ret false
      else
        image_shape <- imread_shape first_path ;;
        r <- calibrate calibrateCamera image_shape ;;
        if truthy r then
          save_calibration output_file ;;;
          emit (Print ("Calibration saved to " ++ output_file)) ;;;
          ret true
        else
          emit (Print "Calibration failed") ;;;
          ret false
  end.

(** The image-point arrays the loop collects, one per readable image on
    which the board is found. *)
Definition accepted_corners (chessboard_size : nat * nat) (image_paths : list string)
  : list ndarray :=
  flat_map
    (fun img_path =>
       match imread img_path with
       | None => []
       | Some img =>
           match findChessboardCorners (cvtColor_gray img) chessboard_size with
           | None => []
           | Some corners =>
               [corners_array (cornerSubPix (cvtColor_gray img) corners)]
           end
       end)
    image_paths.

End WithOpenCV.

End CalibrationBatch.

(** A directory for the calibration session above: every file is a readable
    480 x 640 image, except ["unreadable.jpg"]. *)
Module BatchScenario.

Import CameraCalibration CalibrationScenario.
Local Open Scope string_scope.

Definition imread (path : string) : option image :=
  if String.eqb path "unreadable.jpg" then None else Some (480%nat, 640%nat).

Definition shape_hw (img : image) : nat * nat := img.

Definition run (paths : list string) : state * (py_exn + bool) :=
  CalibrationBatch.calibrate_from_images
    image cvtColor_gray findChessboardCorners cornerSubPix drawChessboardCorners
    calibrateCamera imread shape_hw
    "assets/calibration" "assets/camera_calibration.json" (9%nat, 6%nat) (5 / 2)
    paths fresh.

Definition usable (paths : list string) : list ndarray :=
  CalibrationBatch.accepted_corners
    image cvtColor_gray findChessboardCorners cornerSubPix imread (9%nat, 6%nat) paths.

Definition four_images : list string :=
  ["a.jpg"; "b.jpg"; "c.jpg"; "d.jpg"].

Definition five_images : list string :=
  ["a.jpg"; "b.jpg"; "c.jpg"; "d.jpg"; "e.png"].

Definition unreadable_first : list string :=
  ["unreadable.jpg"; "a.jpg"; "b.jpg"; "c.jpg"; "d.jpg"; "e.png"].

End BatchScenario.

(** Shapes and dataset conditions used to state facts about the calibrator. *)
Module CalibrationFacts.

Import CameraCalibration.

(** A value that [np.array] takes as one element, not as a nested level. *)
Definition is_scalar (v : pyval) : Prop :=
  match v with PList _ => False | _ => True end.

(** An array with no empty dimension whose element count matches its shape
    and whose elements are scalars. *)
Definition well_shaped (a : ndarray) : Prop :=
  Forall (fun n => (0 < n)%nat) (shape a)
  /\ List.length (items a) = fold_right Nat.mul 1%nat (shape a)
  /\ Forall is_scalar (items a).

(** The dataset of a calibrator: as many object-point sets as image-point
    arrays, every object-point set being the board template and every
    image-point array a corner array. *)
Definition dataset_ok (c : CameraCalibrator) : Prop :=
  List.length (objpoints c) = List.length (imgpoints c)
  /\ Forall (fun o => o = objp c) (objpoints c)
  /\ Forall (fun a => exists corners, a = corners_array corners) (imgpoints c).

End CalibrationFacts.

(* ================================================================== *)
(** * src/pose_estimation.py and src/main.py: recording a session frame *)
(* ================================================================== *)

Module PoseEstimation.

(** [int(r)] for a finite float: truncation toward zero. *)
Definition int_of_float (r : R) : Z :=
  if Rle_dec 0 r then Int_part r else (- Int_part (- r))%Z.

(** One normalised landmark of the detector's result. *)
Record landmark : Type :=
  mk_landmark { x : R; y : R; z : R; visibility : R }.

(** [get_keypoints(self, result, frame_width, frame_height)];
    [pose_landmarks] is [result.pose_landmarks], [None] when no pose was
    detected, and otherwise its [landmark] list. *)
Definition get_keypoints (pose_landmarks : option (list landmark))
           (frame_width frame_height : Z) : option (list (Z * Z * R * R)) :=
  match pose_landmarks with
  | None => None
  | Some landmarks =>
      Some (fold_left
              (fun keypoints lm =>
                 let px := int_of_float (x lm * IZR frame_width) in
                 let py := int_of_float (y lm * IZR frame_height) in
                 keypoints ++ [(px, py, z lm, visibility lm)])
              landmarks [])
  end.

End PoseEstimation.

Module Main.

Import PyDict PyFormat Triangulate3dPose.
Local Open Scope string_scope.

(** [f"joint_{i}"]. *)
Definition joint_name (i : nat) : string := "joint_" ++ string_of_nat i.

(** The dictionary comprehension of [main] over [enumerate(keypoints)]. *)
Definition keypoint_dict (keypoints : list (Z * Z * R * R)) : frame :=
  fold_left
    (fun d '(i, (kx, ky, kz, kvis)) =>
       set (joint_name i) (mk_keypoint (IZR kx) (IZR ky) kz kvis) d)
    (combine (seq 0 (List.length keypoints)) keypoints) [].

(** The logging step of the main loop: [if keypoints:] appends the frame's
    dictionary to [pose_log]; [None] and the empty list are skipped. *)
Definition log_keypoints (pose_log : list frame)
           (keypoints : option (list (Z * Z * R * R))) : list frame :=
  match keypoints with
  | None => pose_log
  | Some [] => pose_log
  | Some kps => pose_log ++ [keypoint_dict kps]
  end.

End Main.

(** The session [main] saves: [pose_log] after the loop has logged the
    keypoints of each grabbed frame in turn. *)
Module MainSession.

Import Triangulate3dPose.

Definition record_session (detections : list (option (list (Z * Z * R * R))))
  : list frame :=
  fold_left Main.log_keypoints detections [].

(** A grabbed frame on which keypoints were found. *)
Definition detected (keypoints : option (list (Z * Z * R * R))) : bool :=
  match keypoints with
  | Some (_ :: _) => true
  | _ => false
  end.

End MainSession.

(* ================================================================== *)
(** * utils/stereo_utils.py: point-cloud export *)
(* ================================================================== *)

Module StereoUtilsPly.

Import PyFormat.
Local Open Scope string_scope.

(** One [f.write] of [save_point_cloud]: a literal header line, the vertex
    count line, or the line of one point with its colour (the six values
    are kept as values, not as printed text). *)
Inductive ply_line : Type :=
| Header (text : string)
| ElementVertex (count : nat)
| Vertex (point : point3) (color : Z * Z * Z).

(** [save_point_cloud(points_3d, colors, filename)], as the lines written
    to [filename] in order. *)
Definition save_point_cloud (points_3d : list point3) (colors : list (Z * Z * Z))
  : list ply_line :=
  [Header "ply";
   Header "format ascii 1.0";
   ElementVertex (List.length points_3d);
   Header "property float x";
   Header "property float y";
   Header "property float z";
   Header "property uchar red";
   Header "property uchar green";
   Header "property uchar blue";
   Header "end_header"]
  ++ fold_left
       (fun written '(point, color) => (written ++ [Vertex point color])%list)
       (combine points_3d colors) [].

(** The vertex lines of a written file. *)
Definition vertex_lines (lines : list ply_line) : list ply_line :=
  filter (fun l => match l with Vertex _ _ => true | _ => false end) lines.

(** The vertex count a written file declares. *)
Definition declared_count (lines : list ply_line) : option nat :=
  fold_left (fun r l => match l with ElementVertex n => Some n | _ => r end)
            lines None.

End StereoUtilsPly.

(* ================================================================== *)
(** * Camera rig *)
(* ================================================================== *)

Import StereoUtils.

(** C3. For every baseline [b], focal length [f] and principal point
    [(cx, cy)], the rig builder returns [[f,0,cx,0],[0,f,cy,0],[0,0,1,0]] as
    the left matrix and the same matrix with [-f * b] in row 0, column 3 as
    the right one; with [b = 0] the two matrices are equal. *)
Theorem rig_matrices_exact (b f cx cy : R) :
  create_stereo_camera_matrices b f cx cy
  = (mk_cam (mk_vec4 f 0 cx 0) (mk_vec4 0 f cy 0) (mk_vec4 0 0 1 0),
     mk_cam (mk_vec4 f 0 cx (- f * b)) (mk_vec4 0 f cy 0) (mk_vec4 0 0 1 0))
  /\ fst (create_stereo_camera_matrices 0 f cx cy)
     = snd (create_stereo_camera_matrices 0 f cx cy).
Proof.
  split.
  - reflexivity.
  - unfold create_stereo_camera_matrices; cbn [fst snd].
    replace (- f * 0) with 0 by ring.
    reflexivity.
Qed.

(* ================================================================== *)
(** * DLT triangulation *)
(* ================================================================== *)

Section LinearAlgebra.

Lemma norm2_nonneg (v : vec4) : 0 <= norm2 v.
Proof. destruct v; unfold norm2, dot; cbn. nra. Qed.

Lemma norm2_zero (v : vec4) : norm2 v = 0 -> v = zero4.
Proof.
  destruct v as [p q r s]; unfold norm2, dot, zero4; cbn; intros H.
  assert (p = 0) by nra. assert (q = 0) by nra.
  assert (r = 0) by nra. assert (s = 0) by nra.
  subst; reflexivity.
Qed.

Lemma norm2_scale (s : R) (v : vec4) : norm2 (scale s v) = s * s * norm2 v.
Proof. destruct v; unfold norm2, dot, scale; cbn. ring. Qed.

Lemma mat_vec_scale (A : mat4) (s : R) (v : vec4) :
  mat_vec A (scale s v) = scale s (mat_vec A v).
Proof.
  destruct A as [[] [] [] []], v; unfold mat_vec, scale, dot; cbn.
  f_equal; ring.
Qed.

(** A unit vector in the direction of a non-zero vector. *)
Lemma unit_direction (w : vec4) :
  0 < norm2 w -> norm2 (scale (/ sqrt (norm2 w)) w) = 1.
Proof.
  intros Hpos. rewrite norm2_scale.
  assert (Hs : sqrt (norm2 w) * sqrt (norm2 w) = norm2 w)
    by (apply sqrt_sqrt; lra).
  assert (Hn : sqrt (norm2 w) <> 0).
  { intros E. rewrite E in Hs. lra. }
  rewrite <- Hs at 3. field. exact Hn.
Qed.

(** When the system has a non-trivial solution, the smallest singular
    value is zero and [Vt[-1]] solves the system. *)
Lemma last_right_singular_kernel (A : mat4) (v w : vec4) :
  last_right_singular A v ->
  0 < norm2 w -> mat_vec A w = zero4 ->
  mat_vec A v = zero4.
Proof.
  intros [_ Hmin] Hpos Hker.
  apply norm2_zero.
  specialize (Hmin _ (unit_direction w Hpos)).
  rewrite mat_vec_scale, Hker in Hmin.
  unfold scale, zero4, norm2 at 2, dot in Hmin; cbn in Hmin.
  pose proof (norm2_nonneg (mat_vec A v)). lra.
Qed.

(** Conversely a unit solution of the system is an admissible [Vt[-1]]. *)
Lemma kernel_last_right_singular (A : mat4) (v : vec4) :
  norm2 v = 1 -> mat_vec A v = zero4 -> last_right_singular A v.
Proof.
  intros Hu Hk; split; [exact Hu|].
  intros w _. rewrite Hk.
  pose proof (norm2_nonneg (mat_vec A w)).
  unfold zero4, norm2 at 1, dot; cbn. lra.
Qed.

End LinearAlgebra.

Section RoundTrip.

Import Triangulate3dPose Pinhole.

Variables b f cx cy : R.

Let ML := fst (create_stereo_camera_matrices b f cx cy).
Let MR := snd (create_stereo_camera_matrices b f cx cy).

(** The DLT system of a point seen by the rig, written out. *)
Lemma rig_linear_system (pX pY pZ : R) :
  pZ <> 0 ->
  linear_system (project ML (pX, pY, pZ)) (project MR (pX, pY, pZ)) ML MR
  = mk_mat4 (mk_vec4 (- f) 0 (f * pX / pZ) 0)
            (mk_vec4 0 (- f) (f * pY / pZ) 0)
            (mk_vec4 (- f) 0 (f * (pX - b) / pZ) (f * b))
            (mk_vec4 0 (- f) (f * pY / pZ) 0).
Proof.
  intros HZ.
  unfold linear_system, project, depth, homogeneous, scale_sub, dot; cbn.
  f_equal; f_equal; field; lra.
Qed.

(** The homogeneous point solves the system built from its own two
    projections. *)
Lemma projections_in_kernel (pX pY pZ : R) :
  pZ <> 0 ->
  mat_vec (linear_system (project ML (pX, pY, pZ)) (project MR (pX, pY, pZ)) ML MR)
          (homogeneous (pX, pY, pZ)) = zero4.
Proof.
  intros HZ. rewrite rig_linear_system by exact HZ.
  unfold homogeneous, mat_vec, dot, zero4; cbn.
  f_equal; field; lra.
Qed.

(** With a real baseline the system has rank 3: every solution is a
    multiple of the homogeneous point. *)
Lemma kernel_is_line (pX pY pZ : R) (v : vec4) :
  f <> 0 -> b <> 0 -> pZ <> 0 ->
  mat_vec (linear_system (project ML (pX, pY, pZ)) (project MR (pX, pY, pZ)) ML MR) v
  = zero4 ->
  c0 v = pX * c3 v /\ c1 v = pY * c3 v /\ c2 v = pZ * c3 v.
Proof.
  intros Hf Hb HZ. rewrite rig_linear_system by exact HZ.
  destruct v as [v0 v1 v2 v3].
  unfold mat_vec, dot, zero4; cbn. intros Hk.
  injection Hk as E0 E1 E2 _.
  set (u := v2 / pZ).
  assert (Hv2 : v2 = pZ * u) by (unfold u; field; exact HZ).
  assert (K0 : f * (pX * u - v0) = 0)
    by (rewrite <- E0; unfold u; field; exact HZ).
  assert (K1 : f * (pY * u - v1) = 0)
    by (rewrite <- E1; unfold u; field; exact HZ).
  assert (K2 : f * ((pX - b) * u - v0 + b * v3) = 0)
    by (rewrite <- E2; unfold u; field; exact HZ).
  apply Rmult_integral in K0 as [K0 | K0]; [contradiction|].
  apply Rmult_integral in K1 as [K1 | K1]; [contradiction|].
  apply Rmult_integral in K2 as [K2 | K2]; [contradiction|].
  assert (K3 : b * (v3 - u) = 0) by lra.
  apply Rmult_integral in K3 as [K3 | K3]; [contradiction|].
  assert (Hu : u = v3) by lra.
  rewrite Hu in *.
  repeat split; lra.
Qed.

End RoundTrip.

Import Triangulate3dPose Pinhole.

(** A finite quotient by a non-zero divisor. *)
Lemma fdiv_finite (a d : R) : d <> 0 -> fdiv a d = Fin (a / d).
Proof.
  intros Hd. unfold fdiv. destruct (Req_dec_T d 0); [contradiction | reflexivity].
Qed.

(** A quotient by zero is never finite. *)
Lemma fdiv_by_zero (a : R) : ~ is_finite (fdiv a 0).
Proof.
  unfold fdiv. destruct (Req_dec_T 0 0) as [_ | N]; [| now elim N].
  destruct (Req_dec_T a 0); cbn; tauto.
Qed.

(** C1 (amended). For a rig with non-zero focal length and non-zero
    baseline and a 3D point whose two projections are well defined,
    triangulating the two projections recovers the point exactly, whichever
    admissible last right-singular vector the SVD returns. *)
Theorem triangulation_round_trip
        (svd : mat4 -> vec4) (b f cx cy pX pY pZ : R) :
  let ML := fst (create_stereo_camera_matrices b f cx cy) in
  let MR := snd (create_stereo_camera_matrices b f cx cy) in
  let P := (pX, pY, pZ) in
  f <> 0 -> b <> 0 ->
  depth ML P <> 0 -> depth MR P <> 0 ->
  last_right_singular (linear_system (project ML P) (project MR P) ML MR)
                      (svd (linear_system (project ML P) (project MR P) ML MR)) ->
  triangulate_point svd (project ML P) (project MR P) ML MR
  = (Fin pX, Fin pY, Fin pZ).
Proof.
  intros ML MR P Hf Hb Hd _ Hsvd.
  assert (HZ : pZ <> 0).
  { intros E. apply Hd. unfold depth, dot, ML, P; cbn. rewrite E. ring. }
  unfold triangulate_point.
  set (A := linear_system (project ML P) (project MR P) ML MR) in *.
  set (v := svd A) in *.
  assert (Hker : mat_vec A v = zero4).
  { apply (last_right_singular_kernel A v (homogeneous P)); [exact Hsvd | |].
    - unfold homogeneous, norm2, dot, P; cbn. nra.
    - apply projections_in_kernel; exact HZ. }
  destruct (kernel_is_line b f cx cy pX pY pZ v Hf Hb HZ Hker) as (E0 & E1 & E2).
  assert (H3 : c3 v <> 0).
  { intros E. destruct Hsvd as [Hu _].
    unfold norm2, dot in Hu. rewrite E0, E1, E2, E in Hu. lra. }
  unfold dehomogenize.
  rewrite !fdiv_finite by exact H3.
  rewrite E0, E1, E2.
  repeat f_equal; field; exact H3.
Qed.

Lemma triangulation_round_trip_witness :
  let svd := fun _ : mat4 => mk_vec4 (1 / 2) (1 / 2) (1 / 2) (1 / 2) in
  let ML := fst (create_stereo_camera_matrices 1 1 0 0) in
  let MR := snd (create_stereo_camera_matrices 1 1 0 0) in
  triangulate_point svd (project ML (1, 1, 1)) (project MR (1, 1, 1)) ML MR
  = (Fin 1, Fin 1, Fin 1).
Proof.
  intros svd ML MR.
  apply (triangulation_round_trip svd 1 1 0 0 1 1 1).
  - lra.
  - lra.
  - unfold depth, dot; cbn; lra.
  - unfold depth, dot; cbn; lra.
  - apply kernel_last_right_singular.
    + unfold norm2, dot; cbn; lra.
    + unfold linear_system, project, depth, homogeneous, mat_vec, scale_sub,
        dot, zero4; cbn.
      f_equal; lra.
Defined.

(** C1 (as stated) fails for a rig with zero baseline: both matrices are
    equal, the system has a plane of solutions, and [(0, 0, 0, 1)] is an
    admissible [Vt[-1]] that triangulates the point [(0, 0, 1)] to the
    origin. *)
Lemma round_trip_fails_zero_baseline :
  ~ (forall (svd : mat4 -> vec4) (b f cx cy pX pY pZ : R),
        let ML := fst (create_stereo_camera_matrices b f cx cy) in
        let MR := snd (create_stereo_camera_matrices b f cx cy) in
        let P := (pX, pY, pZ) in
        depth ML P <> 0 -> depth MR P <> 0 ->
        last_right_singular (linear_system (project ML P) (project MR P) ML MR)
                            (svd (linear_system (project ML P) (project MR P) ML MR)) ->
        triangulate_point svd (project ML P) (project MR P) ML MR
        = (Fin pX, Fin pY, Fin pZ)).
Proof.
  intros H.
  specialize (H (fun _ => mk_vec4 0 0 0 1) 0 1 0 0 0 0 1).
  cbv zeta in H.
  assert (Hd : depth (fst (create_stereo_camera_matrices 0 1 0 0)) (0, 0, 1) <> 0)
    by (unfold depth, dot; cbn; lra).
  assert (Hd' : depth (snd (create_stereo_camera_matrices 0 1 0 0)) (0, 0, 1) <> 0)
    by (unfold depth, dot; cbn; lra).
  specialize (H Hd Hd').
  assert (Hs : last_right_singular
                 (linear_system
                    (project (fst (create_stereo_camera_matrices 0 1 0 0)) (0, 0, 1))
                    (project (snd (create_stereo_camera_matrices 0 1 0 0)) (0, 0, 1))
                    (fst (create_stereo_camera_matrices 0 1 0 0))
                    (snd (create_stereo_camera_matrices 0 1 0 0)))
                 (mk_vec4 0 0 0 1)).
  { apply kernel_last_right_singular.
    - unfold norm2, dot; cbn; lra.
    - unfold linear_system, project, depth, homogeneous, mat_vec, scale_sub,
        dot, zero4; cbn.
      f_equal; lra. }
  specialize (H Hs).
  unfold triangulate_point, dehomogenize in H; cbn in H.
  rewrite !fdiv_finite in H by lra.
  injection H as _ _ H. lra.
Qed.

(** With zero baseline the two projections do not depend on the depth of
    the point, so no SVD routine can recover it: a point and any rescaling
    of it triangulate to the same result. *)
Remark zero_baseline_loses_depth
       (svd : mat4 -> vec4) (f cx cy pX pY pZ t : R) :
  let ML := fst (create_stereo_camera_matrices 0 f cx cy) in
  let MR := snd (create_stereo_camera_matrices 0 f cx cy) in
  pZ <> 0 -> t <> 0 ->
  triangulate_point svd (project ML (t * pX, t * pY, t * pZ))
                        (project MR (t * pX, t * pY, t * pZ)) ML MR
  = triangulate_point svd (project ML (pX, pY, pZ)) (project MR (pX, pY, pZ)) ML MR.
Proof.
  intros ML MR HZ Ht.
  unfold triangulate_point. do 2 f_equal.
  unfold linear_system, project, depth, homogeneous, scale_sub, dot, ML, MR; cbn.
  f_equal; f_equal; field; lra.
Qed.

(** C2 (amended). [triangulate_point] has no degeneracy check: it divides by
    the 4th coordinate of the SVD solution whatever its value, and when
    that coordinate is exactly zero it still returns a point, none of whose
    coordinates is finite. *)
Theorem degenerate_division_unguarded
        (svd : mat4 -> vec4) (p1 p2 : point2) (M1 M2 : cam_matrix) :
  c3 (svd (linear_system p1 p2 M1 M2)) = 0 ->
  exists rX rY rZ,
    triangulate_point svd p1 p2 M1 M2 = (rX, rY, rZ)
    /\ ~ is_finite rX /\ ~ is_finite rY /\ ~ is_finite rZ.
Proof.
  intros H0. unfold triangulate_point, dehomogenize. rewrite H0.
  do 3 eexists. split; [reflexivity|].
  repeat split; apply fdiv_by_zero.
Qed.

(** Both pixels at the principal point of the rig: the third column of the
    system is zero, [(0, 0, 1, 0)] is its unit solution, and the SVD
    returns it. *)
Lemma degenerate_division_unguarded_witness :
  let ML := fst (create_stereo_camera_matrices 10 640 320 240) in
  let MR := snd (create_stereo_camera_matrices 10 640 320 240) in
  last_right_singular (linear_system (320, 240) (320, 240) ML MR) (mk_vec4 0 0 1 0)
  /\ exists rX rY rZ,
      triangulate_point (fun _ => mk_vec4 0 0 1 0) (320, 240) (320, 240) ML MR
      = (rX, rY, rZ)
      /\ ~ is_finite rX /\ ~ is_finite rY /\ ~ is_finite rZ.
Proof.
  intros ML MR. split.
  - apply kernel_last_right_singular.
    + unfold norm2, dot; cbn; lra.
    + unfold linear_system, mat_vec, scale_sub, dot, zero4; cbn.
      f_equal; lra.
  - apply (degenerate_division_unguarded (fun _ => mk_vec4 0 0 1 0)).
    reflexivity.
Defined.

(** C2 (as stated) fails.  Both pixels at the principal point of the rig
    (baseline 1, focal length 1, principal point [(0, 0)]): the system has
    rank 3 and its solutions are the multiples of [(0, 0, 1, 0)], so the 4th
    coordinate of [Vt[-1]] is zero whatever the SVD returns, and the call
    returns [(nan, nan, inf)].  The same values come back for two identical
    projections under two identical matrices when the SVD picks that
    vector. *)
Lemma degenerate_returns_nan :
  let ML := fst (create_stereo_camera_matrices 1 1 0 0) in
  let MR := snd (create_stereo_camera_matrices 1 1 0 0) in
  (forall svd : mat4 -> vec4,
      last_right_singular (linear_system (0, 0) (0, 0) ML MR)
                          (svd (linear_system (0, 0) (0, 0) ML MR)) ->
      c3 (svd (linear_system (0, 0) (0, 0) ML MR)) = 0
      /\ triangulate_point svd (0, 0) (0, 0) ML MR = (NaN, NaN, Inf))
  /\ last_right_singular (linear_system (0, 0) (0, 0) ML MR) (mk_vec4 0 0 1 0)
  /\ last_right_singular (linear_system (0, 0) (0, 0) ML ML) (mk_vec4 0 0 1 0)
  /\ triangulate_point (fun _ => mk_vec4 0 0 1 0) (0, 0) (0, 0) ML ML
     = (NaN, NaN, Inf).
Proof.
  intros ML MR.
  assert (Hk : forall M, M = ML \/ M = MR ->
                         mat_vec (linear_system (0, 0) (0, 0) ML M)
                                 (mk_vec4 0 0 1 0) = zero4).
  { intros M [-> | ->];
      unfold linear_system, mat_vec, scale_sub, dot, zero4; cbn; f_equal; lra. }
  assert (Hu : norm2 (mk_vec4 0 0 1 0) = 1) by (unfold norm2, dot; cbn; lra).
  assert (Hnan : dehomogenize (mk_vec4 0 0 1 0) = (NaN, NaN, Inf)).
  { unfold dehomogenize, fdiv; cbn.
    destruct (Req_dec_T 0 0) as [_ | N]; [| now elim N].
    destruct (Req_dec_T 1 0) as [E | _]; [lra | reflexivity]. }
  split; [| split; [| split]].
  - intros svd Hsvd.
    set (v := svd (linear_system (0, 0) (0, 0) ML MR)) in *.
    pose proof (last_right_singular_kernel _ v (mk_vec4 0 0 1 0) Hsvd) as Hker.
    assert (Hz : mat_vec (linear_system (0, 0) (0, 0) ML MR) v = zero4).
    { apply Hker; [rewrite Hu; lra | apply Hk; now right]. }
    destruct Hsvd as [Hn _].
    unfold triangulate_point. fold v.
    destruct v as [v0 v1 v2 v3].
    unfold linear_system, mat_vec, scale_sub, dot, zero4 in Hz; cbn in Hz.
    injection Hz as E0 E1 E2 _.
    unfold norm2, dot in Hn; cbn in Hn.
    assert (v0 = 0) by lra. assert (v1 = 0) by lra. assert (v3 = 0) by lra.
    subst v0 v1 v3.
    assert (Hv2 : v2 <> 0) by (intros ->; lra).
    split; [reflexivity|].
    unfold dehomogenize, fdiv; cbn.
    destruct (Req_dec_T 0 0) as [_ | N]; [| now elim N].
    destruct (Req_dec_T v2 0) as [E | _]; [contradiction | reflexivity].
  - apply kernel_last_right_singular; [exact Hu | apply Hk; now right].
  - apply kernel_last_right_singular; [exact Hu | apply Hk; now left].
  - unfold triangulate_point. exact Hnan.
Qed.

(** A loop that appends one result per element computes a map. *)
Lemma fold_left_snoc {A B : Type} (step : list B -> A -> list B) (g : A -> B)
      (l : list A) (acc : list B) :
  (forall r a, step r a = r ++ [g a]) ->
  fold_left step l acc = acc ++ map g l.
Proof.
  intros Hstep.
  revert acc; induction l as [| a l IH]; intros acc; cbn.
  - now rewrite app_nil_r.
  - rewrite IH, Hstep, <- app_assoc. reflexivity.
Qed.

(** C10. The two DLT implementations agree: for every point pair and every
    pair of camera matrices they build the same 4x4 system and return the
    same dehomogenised point, and the batch routine of [stereo_utils] is the
    single-point routine of [triangulate_3d_pose] applied to each zipped
    pair in order. *)
Theorem dlt_implementations_agree
        (svd : mat4 -> vec4) (M1 M2 : cam_matrix) :
  (forall p1 p2 : point2,
      StereoUtils.linear_system p1 p2 M1 M2
      = Triangulate3dPose.linear_system p1 p2 M1 M2
      /\ triangulate_points svd [p1] [p2] M1 M2
         = [triangulate_point svd p1 p2 M1 M2])
  /\ forall points_left points_right : list point2,
      triangulate_points svd points_left points_right M1 M2
      = map (fun pq => triangulate_point svd (fst pq) (snd pq) M1 M2)
            (combine points_left points_right).
Proof.
  assert (Hall : forall points_left points_right : list point2,
             triangulate_points svd points_left points_right M1 M2
             = map (fun pq => triangulate_point svd (fst pq) (snd pq) M1 M2)
                   (combine points_left points_right)).
  { intros pl pr. unfold triangulate_points.
    rewrite (fold_left_snoc _
               (fun pq => triangulate_point svd (fst pq) (snd pq) M1 M2)).
    - reflexivity.
    - intros r [l0 r0]. reflexivity. }
  split; [| exact Hall].
  intros p1 p2. split; [reflexivity|].
  rewrite Hall. reflexivity.
Qed.

(* ================================================================== *)
(** * Correspondence filtering and batch triangulation *)
(* ================================================================== *)

Section DictFacts.

Import PyDict.

Context {V : Type}.

Lemma mem_true_iff (k : string) (d : dict V) :
  mem k d = true <-> In k (keys d).
Proof.
  unfold mem. induction d as [| [k' v] d IH]; cbn.
  - split; [discriminate | tauto].
  - destruct (String.eqb_spec k k') as [-> | Hne].
    + split; auto.
    + rewrite IH. split; [auto | intros [E | H]; [congruence | exact H]].
Qed.

Lemma get_some_of_in (k : string) (d : dict V) :
  In k (keys d) -> exists v, get k d = Some v.
Proof.
  intros H. apply mem_true_iff in H. unfold mem in H.
  destruct (get k d) as [v |]; [now exists v | discriminate].
Qed.

Lemma keys_set_fresh (k : string) (v : V) (d : dict V) :
  ~ In k (keys d) -> keys (set k v d) = keys d ++ [k].
Proof.
  unfold keys. induction d as [| [k' v'] d IH]; cbn; intros Hn.
  - reflexivity.
  - destruct (String.eqb_spec k k') as [-> | Hne].
    + exfalso; apply Hn; now left.
    + cbn. rewrite IH; [reflexivity | tauto].
Qed.

Lemma get_set_same (k : string) (v : V) (d : dict V) :
  get k (set k v d) = Some v.
Proof.
  induction d as [| [k' v'] d IH]; cbn.
  - now rewrite String.eqb_refl.
  - destruct (String.eqb_spec k k') as [-> | Hne]; cbn.
    + now rewrite String.eqb_refl.
    + destruct (String.eqb_spec k k'); [contradiction | exact IH].
Qed.

Lemma get_set_other (k k' : string) (v : V) (d : dict V) :
  k <> k' -> get k (set k' v d) = get k d.
Proof.
  intros Hne. induction d as [| [k0 v0] d IH]; cbn.
  - destruct (String.eqb_spec k k'); [contradiction | reflexivity].
  - destruct (String.eqb_spec k' k0) as [-> | Hne0]; cbn.
    + destruct (String.eqb_spec k k0); [contradiction | reflexivity].
    + destruct (String.eqb_spec k k0); [reflexivity | exact IH].
Qed.

End DictFacts.

Section FrameLoop.

Import PyDict.

Variable svd : mat4 -> vec4.
Variables frame1 frame2 : frame.
Variables M1 M2 : cam_matrix.

(** The body of the loop over [frame1.keys()]. *)
Let body (joints_3d : dict joint3d) (joint_name : string) : dict joint3d :=
  if negb (mem joint_name frame2) then joints_3d
  else
    match get joint_name frame1, get joint_name frame2 with
    | Some k1, Some k2 =>
        let '(pX, pY, pZ) :=
          triangulate_point svd (x k1, y k1) (x k2, y k2) M1 M2 in
        set joint_name (mk_joint3d pX pY pZ) joints_3d
    | _, _ => joints_3d
    end.

Lemma body_skip (acc : dict joint3d) (k : string) :
  mem k frame2 = false -> body acc k = acc.
Proof. intros H. unfold body. rewrite H. reflexivity. Qed.

Lemma body_emit (acc : dict joint3d) (k : string) :
  In k (keys frame1) -> mem k frame2 = true -> ~ In k (keys acc) ->
  keys (body acc k) = keys acc ++ [k].
Proof.
  intros H1 H2 Hfresh. unfold body. rewrite H2. cbn [negb].
  destruct (get_some_of_in k frame1 H1) as [k1 ->].
  apply mem_true_iff in H2.
  destruct (get_some_of_in k frame2 H2) as [k2 ->].
  destruct (triangulate_point svd (x k1, y k1) (x k2, y k2) M1 M2) as [[pX pY] pZ].
  apply keys_set_fresh. exact Hfresh.
Qed.

Lemma loop_keys (ks : list string) (acc : dict joint3d) :
  NoDup ks ->
  (forall k, In k ks -> In k (keys frame1)) ->
  (forall k, In k ks -> ~ In k (keys acc)) ->
  keys (fold_left body ks acc)
  = keys acc ++ filter (fun k => mem k frame2) ks.
Proof.
  revert acc.
  induction ks as [| k ks IH]; intros acc Hnd Hsub Hfresh; cbn [fold_left filter].
  - now rewrite app_nil_r.
  - inversion Hnd as [| ? ? Hk Hnd']; subst.
    destruct (mem k frame2) eqn:Hm.
    + assert (Hemit : keys (body acc k) = keys acc ++ [k]).
      { apply body_emit; [apply Hsub; now left | exact Hm | apply Hfresh; now left]. }
      rewrite IH; try assumption.
      * rewrite Hemit, <- app_assoc. reflexivity.
      * intros k' Hin. apply Hsub. now right.
      * intros k' Hin. rewrite Hemit, in_app_iff.
        intros [Hacc | [E | []]].
        -- apply (Hfresh k'); [now right | exact Hacc].
        -- subst. contradiction.
    + rewrite body_skip by exact Hm.
      apply IH; try assumption.
      * intros k' Hin. apply Hsub. now right.
      * intros k' Hin. apply Hfresh. now right.
Qed.

Lemma triangulate_frame_keys :
  wf frame1 ->
  keys (triangulate_frame svd frame1 frame2 M1 M2)
  = filter (fun k => mem k frame2) (keys frame1).
Proof.
  intros Hwf. unfold triangulate_frame. fold body.
  rewrite loop_keys; auto.
Qed.

(** The joint written for a pair of matching keypoints. *)
Let emitted (k1 k2 : keypoint) : joint3d :=
  let '(pX, pY, pZ) := triangulate_point svd (x k1, y k1) (x k2, y k2) M1 M2 in
  mk_joint3d pX pY pZ.

Lemma body_value (acc : dict joint3d) (k : string) (k1 k2 : keypoint) :
  get k frame1 = Some k1 -> get k frame2 = Some k2 ->
  body acc k = set k (emitted k1 k2) acc.
Proof.
  intros H1 H2. unfold body, emitted, mem. rewrite H1, H2. cbn [negb].
  destruct (triangulate_point svd (x k1, y k1) (x k2, y k2) M1 M2) as [[pX pY] pZ].
  reflexivity.
Qed.

Lemma body_other (acc : dict joint3d) (k k' : string) :
  k <> k' -> get k (body acc k') = get k acc.
Proof.
  intros Hne. unfold body.
  destruct (negb (mem k' frame2)); [reflexivity|].
  destruct (get k' frame1) as [k1 |]; [| reflexivity].
  destruct (get k' frame2) as [k2 |]; [| reflexivity].
  destruct (triangulate_point svd (x k1, y k1) (x k2, y k2) M1 M2) as [[pX pY] pZ].
  apply get_set_other. exact Hne.
Qed.

Lemma loop_get_notin (ks : list string) (acc : dict joint3d) (k : string) :
  ~ In k ks -> get k (fold_left body ks acc) = get k acc.
Proof.
  revert acc. induction ks as [| h t IH]; intros acc Hn; cbn [fold_left].
  - reflexivity.
  - rewrite IH by (intros Hin; apply Hn; now right).
    apply body_other. intros ->. apply Hn. now left.
Qed.

Lemma loop_get_in (ks : list string) (acc : dict joint3d) (k : string)
      (k1 k2 : keypoint) :
  In k ks -> get k frame1 = Some k1 -> get k frame2 = Some k2 ->
  get k (fold_left body ks acc) = Some (emitted k1 k2).
Proof.
  intros Hin H1 H2. revert acc Hin.
  induction ks as [| h t IH]; intros acc Hin; cbn [fold_left].
  - destruct Hin.
  - destruct (in_dec string_dec k t) as [Ht | Ht].
    + apply IH. exact Ht.
    + destruct Hin as [-> | Hin]; [| contradiction].
      rewrite loop_get_notin by exact Ht.
      rewrite (body_value acc k k1 k2 H1 H2).
      apply get_set_same.
Qed.

Lemma triangulate_frame_get (k : string) (k1 k2 : keypoint) :
  get k frame1 = Some k1 -> get k frame2 = Some k2 ->
  get k (triangulate_frame svd frame1 frame2 M1 M2)
  = Some (let '(pX, pY, pZ) :=
            triangulate_point svd (x k1, y k1) (x k2, y k2) M1 M2 in
          mk_joint3d pX pY pZ).
Proof.
  intros H1 H2. unfold triangulate_frame. fold body.
  apply loop_get_in; [| exact H1 | exact H2].
  apply mem_true_iff. unfold mem. rewrite H1. reflexivity.
Qed.

Lemma loop_no_common (ks : list string) (acc : dict joint3d) :
  (forall k, In k ks -> ~ In k (keys frame2)) ->
  fold_left body ks acc = acc.
Proof.
  revert acc. induction ks as [| k ks IH]; intros acc Hno; cbn [fold_left].
  - reflexivity.
  - rewrite body_skip.
    + apply IH. intros k' Hin. apply Hno. now right.
    + destruct (mem k frame2) eqn:Hm; [| reflexivity].
      apply mem_true_iff in Hm. exfalso. apply (Hno k); [now left | exact Hm].
Qed.

Lemma triangulate_frame_no_common :
  (forall k, In k (keys frame1) -> ~ In k (keys frame2)) ->
  triangulate_frame svd frame1 frame2 M1 M2 = [].
Proof.
  intros Hno. unfold triangulate_frame. fold body.
  apply loop_no_common. exact Hno.
Qed.

End FrameLoop.

(** C4. For a pair of frames, a joint identifier is emitted exactly when it
    is present in both frames; identifiers of view A missing from view B are
    skipped, the emitted identifiers keep the iteration order of view A's
    mapping, and the joint emitted for an identifier is the triangulation
    of its two keypoints. *)
Theorem correspondence_filtering
        (svd : mat4 -> vec4) (frame1 frame2 : frame) (M1 M2 : cam_matrix) :
  PyDict.wf frame1 ->
  PyDict.keys (triangulate_frame svd frame1 frame2 M1 M2)
  = filter (fun k => PyDict.mem k frame2) (PyDict.keys frame1)
  /\ (forall k,
         In k (PyDict.keys (triangulate_frame svd frame1 frame2 M1 M2))
         <-> In k (PyDict.keys frame1) /\ In k (PyDict.keys frame2))
  /\ (forall k k1 k2,
         PyDict.get k frame1 = Some k1 -> PyDict.get k frame2 = Some k2 ->
         PyDict.get k (triangulate_frame svd frame1 frame2 M1 M2)
         = Some (let '(pX, pY, pZ) :=
                   triangulate_point svd (x k1, y k1) (x k2, y k2) M1 M2 in
                 mk_joint3d pX pY pZ)).
Proof.
  intros Hwf.
  pose proof (triangulate_frame_keys svd frame1 frame2 M1 M2 Hwf) as Hkeys.
  split; [exact Hkeys | split].
  - intros k. rewrite Hkeys, filter_In, mem_true_iff. reflexivity.
  - intros k k1 k2. apply triangulate_frame_get.
Qed.

Lemma correspondence_filtering_witness :
  let kp := mk_keypoint 100 200 0 1 in
  let viewA := [("joint_0"%string, kp); ("joint_1"%string, kp); ("joint_2"%string, kp)] in
  let viewB := [("joint_0"%string, kp); ("joint_2"%string, kp)] in
  PyDict.keys
    (triangulate_frame (fun _ => mk_vec4 0 0 0 1) viewA viewB
                       (fst (create_stereo_camera_matrices 10 640 320 240))
                       (snd (create_stereo_camera_matrices 10 640 320 240)))
  = ["joint_0"%string; "joint_2"%string].
Proof.
  intros kp viewA viewB.
  refine (eq_trans
            (proj1 (correspondence_filtering (fun _ => mk_vec4 0 0 0 1) viewA viewB
                      (fst (create_stereo_camera_matrices 10 640 320 240))
                      (snd (create_stereo_camera_matrices 10 640 320 240)) _)) _).
  - unfold PyDict.wf, viewA; cbn.
    repeat constructor; cbn; intuition discriminate.
  - reflexivity.
Defined.

Lemma nth_error_combine {A B : Type} (l : list A) (l' : list B) (i : nat) (a : A) (b : B) :
  nth_error l i = Some a -> nth_error l' i = Some b ->
  nth_error (combine l l') i = Some (a, b).
Proof.
  revert l' i. induction l as [| h t IH]; intros [| h' t'] [| i]; cbn;
    try discriminate.
  - intros [= ->] [= ->]. reflexivity.
  - apply IH.
Qed.

Lemma triangulate_all_frames_map
      (svd : mat4 -> vec4) (view1 view2 : list frame) (M1 M2 : cam_matrix) :
  triangulate_all_frames svd view1 view2 M1 M2
  = map (fun fg => triangulate_frame svd (fst fg) (snd fg) M1 M2)
        (combine view1 view2).
Proof.
  unfold triangulate_all_frames.
  rewrite (fold_left_snoc _ (fun fg => triangulate_frame svd (fst fg) (snd fg) M1 M2)).
  - reflexivity.
  - intros r [f1 f2]. reflexivity.
Qed.

(** C5. The batch returns one joint map per zipped frame pair: its length is
    the smaller of the two session lengths, entry [i] is the map of frame
    [i] of view A against frame [i] of view B, and a pair without a common
    joint contributes an empty map at its position. *)
Theorem batch_shape_and_order
        (svd : mat4 -> vec4) (view1 view2 : list frame) (M1 M2 : cam_matrix) :
  List.length (triangulate_all_frames svd view1 view2 M1 M2)
  = Nat.min (List.length view1) (List.length view2)
  /\ (forall i frame1 frame2,
         nth_error view1 i = Some frame1 ->
         nth_error view2 i = Some frame2 ->
         nth_error (triangulate_all_frames svd view1 view2 M1 M2) i
         = Some (triangulate_frame svd frame1 frame2 M1 M2))
  /\ (forall i frame1 frame2,
         nth_error view1 i = Some frame1 ->
         nth_error view2 i = Some frame2 ->
         (forall k, In k (PyDict.keys frame1) -> ~ In k (PyDict.keys frame2)) ->
         nth_error (triangulate_all_frames svd view1 view2 M1 M2) i = Some []).
Proof.
  rewrite triangulate_all_frames_map.
  assert (Hnth : forall i frame1 frame2,
             nth_error view1 i = Some frame1 ->
             nth_error view2 i = Some frame2 ->
             nth_error (map (fun fg => triangulate_frame svd (fst fg) (snd fg) M1 M2)
                            (combine view1 view2)) i
             = Some (triangulate_frame svd frame1 frame2 M1 M2)).
  { intros i f1 f2 H1 H2.
    rewrite nth_error_map, (nth_error_combine _ _ _ _ _ H1 H2). reflexivity. }
  split; [| split].
  - rewrite length_map, length_combine. reflexivity.
  - exact Hnth.
  - intros i f1 f2 H1 H2 Hno.
    rewrite (Hnth i f1 f2 H1 H2).
    rewrite triangulate_frame_no_common by exact Hno. reflexivity.
Qed.

Lemma batch_shape_and_order_witness :
  let kp := mk_keypoint 100 200 0 1 in
  let svd := fun _ : mat4 => mk_vec4 0 0 0 1 in
  let ML := fst (create_stereo_camera_matrices 10 640 320 240) in
  let MR := snd (create_stereo_camera_matrices 10 640 320 240) in
  let viewA := [[("joint_0"%string, kp)]; [("joint_1"%string, kp)]; [("joint_2"%string, kp)]] in
  let viewB := [[("joint_0"%string, kp)]; [("joint_5"%string, kp)]] in
  List.length (triangulate_all_frames svd viewA viewB ML MR) = 2%nat
  /\ nth_error (triangulate_all_frames svd viewA viewB ML MR) 1 = Some [].
Proof.
  intros kp svd ML MR viewA viewB.
  destruct (batch_shape_and_order svd viewA viewB ML MR) as (Hlen & _ & Hempty).
  split.
  - exact Hlen.
  - apply (Hempty 1%nat [("joint_1"%string, kp)] [("joint_5"%string, kp)]).
    + reflexivity.
    + reflexivity.
    + cbn. intros k [<- | []] [E | []]. discriminate.
Defined.

(* ================================================================== *)
(** * Disparity to depth *)
(* ================================================================== *)

Lemma mask_zero_float_nonzero (d : R) : mask_zero_float d <> 0.
Proof.
  unfold mask_zero_float. destruct (Req_dec_T d 0); [lra | assumption].
Qed.

Lemma depth_pixel_float (b f d : R) :
  fdiv (b * f) (mask_zero_float d) = Fin (b * f / mask_zero_float d).
Proof. apply fdiv_finite, mask_zero_float_nonzero. Qed.

(** C6 (amended). On a floating-point disparity map, [depth_from_disparity]
    divides [baseline * focal_length] elementwise by [d'], where [d'] is 0.1
    for a pixel whose disparity is exactly zero and the disparity itself
    for every other pixel, however small or negative; the divisor is
    therefore never zero, and on an all-zero map every output pixel is the
    quotient of [baseline * focal_length] by 0.1. *)
Theorem depth_from_disparity_float (rows : list (list R)) (b f : R) :
  depth_from_disparity (FloatMap rows) b f
  = map (map (fun d => fdiv (b * f) (if Req_dec_T d 0 then 1 / 10 else d))) rows
  /\ (forall d, d <> 0 ->
                depth_from_disparity (FloatMap [[d]]) b f = [[fdiv (b * f) d]])
  /\ (forall d, (if Req_dec_T d 0 then 1 / 10 else d) <> 0)
  /\ (Forall (Forall (fun d => d = 0)) rows ->
      depth_from_disparity (FloatMap rows) b f
      = map (map (fun _ => fdiv (b * f) (1 / 10))) rows).
Proof.
  assert (Hformula : forall rs,
             depth_from_disparity (FloatMap rs) b f
             = map (map (fun d => fdiv (b * f) (if Req_dec_T d 0 then 1 / 10 else d)))
                   rs).
  { intros rs. unfold depth_from_disparity. rewrite map_map.
    apply map_ext; intros row. rewrite map_map. reflexivity. }
  split; [apply Hformula | split; [| split]].
  - intros d Hd. rewrite Hformula. cbn [map].
    destruct (Req_dec_T d 0); [contradiction | reflexivity].
  - intros d. apply mask_zero_float_nonzero.
  - intros Hzero. rewrite Hformula.
    apply map_ext_in; intros row Hrow.
    apply map_ext_in; intros d Hd.
    rewrite Forall_forall in Hzero. specialize (Hzero row Hrow).
    rewrite Forall_forall in Hzero. rewrite (Hzero d Hd).
    destruct (Req_dec_T 0 0) as [_ | N]; [reflexivity | now elim N].
Qed.

Lemma depth_from_disparity_float_witness :
  depth_from_disparity (FloatMap [[0; 0]; [0; 0]]) 10 640
  = [[fdiv (10 * 640) (1 / 10); fdiv (10 * 640) (1 / 10)];
     [fdiv (10 * 640) (1 / 10); fdiv (10 * 640) (1 / 10)]]
  /\ depth_from_disparity (FloatMap [[1 / 20]]) 10 640 = [[fdiv (10 * 640) (1 / 20)]].
Proof.
  split.
  - apply (proj2 (proj2 (proj2 (depth_from_disparity_float [[0; 0]; [0; 0]] 10 640)))).
    repeat constructor.
  - apply (proj1 (proj2 (depth_from_disparity_float [] 10 640)) (1 / 20)).
    lra.
Defined.

(** C6 (as stated) fails: no epsilon makes the code equal to
    [baseline * focal_length / max(disparity, epsilon)].  A zero pixel forces
    epsilon to be 0.1, and then the positive sub-epsilon disparity 0.05 is
    left as it is (depth 20) instead of being clamped (depth 10). *)
Lemma depth_is_not_max_clamp :
  ~ exists eps : R,
      0 < eps
      /\ forall d : R,
          depth_from_disparity (FloatMap [[d]]) 1 1 = [[Fin (1 * 1 / Rmax d eps)]].
Proof.
  intros (eps & Hpos & H).
  pose proof (H 0) as H0. pose proof (H (1 / 20)) as H1.
  unfold depth_from_disparity in H0, H1; cbn in H0, H1.
  rewrite depth_pixel_float in H0, H1.
  injection H0 as H0. injection H1 as H1.
  unfold mask_zero_float in H0, H1.
  destruct (Req_dec_T 0 0) as [_ | N]; [| now elim N].
  destruct (Req_dec_T (1 / 20) 0) as [E | _]; [lra|].
  rewrite Rmax_right in H0 by lra.
  assert (Heps : eps = 1 / 10).
  { apply (f_equal Rinv) in H0.
    replace (/ (1 * 1 / (1 / 10))) with (1 / 10) in H0 by (field).
    replace (/ (1 * 1 / eps)) with eps in H0 by (field; lra).
    lra. }
  subst eps.
  rewrite Rmax_right in H1 by lra.
  lra.
Qed.

(** On an integer disparity map (the dtype block matching returns) the
    assignment of 0.1 stores 0, so a zero pixel still divides by zero. *)
Remark depth_from_disparity_int_zero (b f : R) :
  b * f <> 0 ->
  depth_from_disparity (IntMap [[0%Z; 0%Z]; [0%Z; 0%Z]]) b f
  = [[Inf; Inf]; [Inf; Inf]].
Proof.
  intros Hbf. unfold depth_from_disparity, fdiv; cbn.
  destruct (Req_dec_T 0 0) as [_ | N]; [| now elim N].
  destruct (Req_dec_T (b * f) 0) as [E | _]; [contradiction | reflexivity].
Qed.

(* ================================================================== *)
(** * Calibration store *)
(* ================================================================== *)

Import CameraCalibration.

(** An accepted image adds exactly one entry to the dataset and a rejected
    one leaves the calibrator as it was. *)
Lemma add_calibration_image_count
      (image : Type) (cvtColor_gray : image -> image)
      (findChessboardCorners : image -> nat * nat -> option (list (R * R)))
      (cornerSubPix : image -> list (R * R) -> list (R * R))
      (drawChessboardCorners : image -> nat * nat -> list (R * R) -> image)
      (img : image) (st : state) :
  match add_calibration_image image cvtColor_gray findChessboardCorners
                              cornerSubPix drawChessboardCorners img st with
  | (st', inr (true, _)) =>
      List.length (objpoints (self st')) = S (List.length (objpoints (self st)))
      /\ List.length (imgpoints (self st')) = S (List.length (imgpoints (self st)))
  | (st', inr (false, img')) => st' = st /\ img' = img
  | (_, inl _) => False
  end.
Proof.
  unfold add_calibration_image, bind, get_self, update, ret.
  destruct (findChessboardCorners (cvtColor_gray img) (chessboard_size (self st)))
    as [corners |]; cbn.
  - rewrite !length_app; cbn. split; lia.
  - destruct st; split; reflexivity.
Qed.

(** C7. [calibrate] with fewer than 5 accepted images returns [False]
    without calling the solver and without touching the calibrator; with 5
    or more it calls the solver once on the whole dataset, stores what the
    solver returns and returns the solver's result. *)
Theorem calibration_gating
        (calibrateCamera :
           list ndarray -> list ndarray -> nat * nat ->
           R * ndarray * ndarray * list ndarray * list ndarray)
        (image_shape : nat * nat) (st : state) :
  ((List.length (objpoints (self st)) < 5)%nat ->
   calibrate calibrateCamera image_shape st
   = (mk_state (self st) (trace st ++ [Print "Need at least 5 calibration images"]),
      inr (PBool false)))
  /\ ((5 <= List.length (objpoints (self st)))%nat ->
      let size := (snd image_shape, fst image_shape) in
      let solved := calibrateCamera (objpoints (self st)) (imgpoints (self st)) size in
      let '(r, cm, dc, rv, tv) := solved in
      calibrate calibrateCamera image_shape st
      = (mk_state
           (set_tvecs (Some tv)
              (set_rvecs (Some rv)
                 (set_dist_coeffs (Some dc)
                    (set_camera_matrix (Some cm) (self st)))))
           (trace st ++ [CalibrateCamera (objpoints (self st)) (imgpoints (self st)) size]),
         inr (PFloat r))).
Proof.
  split; intros Hn.
  - unfold calibrate, bind, get_self.
    apply Nat.ltb_lt in Hn. rewrite Hn.
    reflexivity.
  - unfold calibrate, bind, get_self.
    apply Nat.ltb_ge in Hn. rewrite Hn.
    cbn.
    destruct (calibrateCamera (objpoints (self st)) (imgpoints (self st))
                              (snd image_shape, fst image_shape))
      as [[[[r cm] dc] rv] tv].
    reflexivity.
Qed.

Lemma calibration_gating_witness :
  snd (CalibrationScenario.calibrate_after 4) = inr (PBool false)
  /\ snd (CalibrationScenario.calibrate_after 5) = inr (PFloat (1 / 2)).
Proof.
  split.
  - unfold CalibrationScenario.calibrate_after, bind.
    assert (E : CalibrationScenario.add_images 4 CalibrationScenario.fresh
                = (fst (CalibrationScenario.add_images 4 CalibrationScenario.fresh),
                   inr tt)) by reflexivity.
    rewrite E.
    rewrite (proj1 (calibration_gating CalibrationScenario.calibrateCamera
                      (480%nat, 640%nat) _)).
    + reflexivity.
    + cbn. lia.
  - unfold CalibrationScenario.calibrate_after, bind.
    assert (E : CalibrationScenario.add_images 5 CalibrationScenario.fresh
                = (fst (CalibrationScenario.add_images 5 CalibrationScenario.fresh),
                   inr tt)) by reflexivity.
    rewrite E.
    pose proof (proj2 (calibration_gating CalibrationScenario.calibrateCamera
                         (480%nat, 640%nat)
                         (fst (CalibrationScenario.add_images 5 CalibrationScenario.fresh))))
      as H.
    cbv zeta in H. unfold CalibrationScenario.calibrateCamera at 1 in H.
    rewrite H.
    + reflexivity.
    + cbn. lia.
Defined.

(** What [save_calibration] writes for a calibrator that holds a model and
    at least one image-point array: the third entry is the first two
    dimensions of the first image-point array. *)
Lemma save_calibration_content
      (filename : string) (st : state) (cm dc i0 : ndarray) (rest : list ndarray) :
  camera_matrix (self st) = Some cm ->
  dist_coeffs (self st) = Some dc ->
  imgpoints (self st) = i0 :: rest ->
  save_calibration filename st
  = (mk_state (self st)
              (trace st ++
                 [WriteFile filename
                    (PDict [("camera_matrix"%string, tolist cm);
                            ("dist_coeffs"%string, tolist dc);
                            ("image_shape"%string, shape_0_2 i0)])]),
     inr true).
Proof.
  intros Hcm Hdc Himg.
  unfold save_calibration, bind, get_self.
  rewrite Hcm, Hdc, Himg. reflexivity.
Qed.

(** The image-point array of an accepted image has shape [(N, 1, 2)], so its
    first two dimensions are the corner count and 1. *)
Lemma corners_array_shape_0_2 (corners : list (R * R)) :
  shape_0_2 (corners_array corners)
  = PList [PInt (Z.of_nat (List.length corners)); PInt 1].
Proof. reflexivity. Qed.

(** C9 (the code departs from the claim). After five accepted 480 x 640
    images of a 9 x 6 board, [calibrate((480, 640))] and [save_calibration],
    the file holds the three documented keys, but ["image_shape"] is
    [[54, 1]], the corner count and 1, not the image height and width. *)
Theorem saved_image_shape_is_corner_count :
  snd CalibrationScenario.calibrate_and_save = inr true
  /\ CalibrationScenario.last_written (trace (fst CalibrationScenario.calibrate_and_save))
     = Some (PDict [("camera_matrix"%string, tolist CalibrationScenario.solved_camera_matrix);
                    ("dist_coeffs"%string, tolist CalibrationScenario.solved_dist_coeffs);
                    ("image_shape"%string, PList [PInt 54; PInt 1])])
  /\ PList [PInt 54; PInt 1] <> PList [PInt 480; PInt 640].
Proof.
  split; [reflexivity | split; [reflexivity | discriminate]].
Qed.

(** C8 (amended). [load_calibration] returns [False], after printing the
    error text of the exception, in every failure case: when the file
    cannot be read or parsed, when its content is not an object or lacks
    either key, and when [np.array] rejects either value.  When the failure
    comes before ["camera_matrix"] has been converted, the calibrator keeps
    its prior state; when it comes after (["dist_coeffs"] missing or
    rejected), the camera matrix has already been replaced and the rest of
    the state is kept.  When both entries convert, whatever their element
    type, both are stored, nothing is printed and the result is [True]; a
    string converts. *)
Theorem load_calibration_outcomes (st : state) :
  let failed (e : py_exn) :=
    (mk_state (self st) (trace st ++ [PrintExn "Error loading calibration: " e]),
     @inr py_exn bool false) in
  let failed_after (cm : ndarray) (e : py_exn) :=
    (mk_state (set_camera_matrix (Some cm) (self st))
              (trace st ++ [PrintExn "Error loading calibration: " e]),
     @inr py_exn bool false) in
  (forall e, load_calibration (inl e) st = failed e)
  /\ (forall data e,
         getitem data "camera_matrix" = inl e ->
         load_calibration (inr data) st = failed e)
  /\ (forall data cmv,
         getitem data "camera_matrix" = inr cmv ->
         np_array cmv = None ->
         load_calibration (inr data) st = failed ValueError)
  /\ (forall data cmv cm e,
         getitem data "camera_matrix" = inr cmv ->
         np_array cmv = Some cm ->
         getitem data "dist_coeffs" = inl e ->
         load_calibration (inr data) st = failed_after cm e)
  /\ (forall data cmv cm dcv,
         getitem data "camera_matrix" = inr cmv ->
         np_array cmv = Some cm ->
         getitem data "dist_coeffs" = inr dcv ->
         np_array dcv = None ->
         load_calibration (inr data) st = failed_after cm ValueError)
  /\ (forall data cmv cm dcv dc,
         getitem data "camera_matrix" = inr cmv ->
         np_array cmv = Some cm ->
         getitem data "dist_coeffs" = inr dcv ->
         np_array dcv = Some dc ->
         load_calibration (inr data) st
         = (mk_state (set_dist_coeffs (Some dc)
                        (set_camera_matrix (Some cm) (self st)))
                     (trace st),
            inr true))
  /\ (forall s, np_array (PStr s) = Some (mk_ndarray [] [PStr s])).
Proof.
  intros failed failed_after.
  split; [| split; [| split; [| split; [| split; [| split]]]]].
  - intros e. reflexivity.
  - intros data e H.
    unfold load_calibration, try_except, bind, lift. rewrite H. reflexivity.
  - intros data cmv H Hnp.
    unfold load_calibration, try_except, bind, lift, np_array_m.
    rewrite H, Hnp. reflexivity.
  - intros data cmv cm e H Hnp H'.
    unfold load_calibration, try_except, bind, lift, np_array_m.
    rewrite H, Hnp. cbn. rewrite H'. reflexivity.
  - intros data cmv cm dcv H Hnp H' Hnp'.
    unfold load_calibration, try_except, bind, lift, np_array_m.
    rewrite H, Hnp. cbn. rewrite H'. cbn. rewrite Hnp'. reflexivity.
  - intros data cmv cm dcv dc H Hnp H' Hnp'.
    unfold load_calibration, try_except, bind, lift, np_array_m.
    rewrite H, Hnp. cbn. rewrite H'. cbn. rewrite Hnp'. reflexivity.
  - intros s. reflexivity.
Qed.

Lemma load_calibration_outcomes_witness :
  let identity := PList [PList [PFloat 1; PFloat 0; PFloat 0];
                         PList [PFloat 0; PFloat 1; PFloat 0];
                         PList [PFloat 0; PFloat 0; PFloat 1]] in
  let eye := mk_ndarray [3%nat; 3%nat]
                        [PFloat 1; PFloat 0; PFloat 0;
                         PFloat 0; PFloat 1; PFloat 0;
                         PFloat 0; PFloat 0; PFloat 1] in
  let ragged := PList [PList [PFloat 1; PFloat 2]; PList [PFloat 3]] in
  let no_dist := PDict [("camera_matrix"%string, identity)] in
  let bad_dist := PDict [("camera_matrix"%string, identity);
                         ("dist_coeffs"%string, ragged)] in
  let st := CalibrationScenario.calibrated in
  load_calibration (inr CalibrationScenario.missing_key_file) st
  = (mk_state (self st)
              [PrintExn "Error loading calibration: " (KeyError "camera_matrix")],
     inr false)
  /\ load_calibration (inr no_dist) st
     = (mk_state (set_camera_matrix (Some eye) (self st))
                 [PrintExn "Error loading calibration: " (KeyError "dist_coeffs")],
        inr false)
  /\ load_calibration (inr bad_dist) st
     = (mk_state (set_camera_matrix (Some eye) (self st))
                 [PrintExn "Error loading calibration: " ValueError],
        inr false).
Proof.
  intros identity eye ragged no_dist bad_dist st.
  destruct (load_calibration_outcomes st)
    as (_ & Hcam & _ & Hdist & Hbad & _).
  split; [| split].
  - apply (Hcam CalibrationScenario.missing_key_file (KeyError "camera_matrix")).
    reflexivity.
  - apply (Hdist no_dist identity eye (KeyError "dist_coeffs")); reflexivity.
  - apply (Hbad bad_dist identity eye ragged); reflexivity.
Defined.

(** C8 (as stated) fails.  A calibrated calibrator loads a file whose
    ["camera_matrix"] and ["dist_coeffs"] entries are strings: the call
    returns [True], prints nothing, and the stored camera matrix is
    replaced by the string array. *)
Lemma load_accepts_non_numeric_data :
  let r := load_calibration (inr CalibrationScenario.non_numeric_file)
                            CalibrationScenario.calibrated in
  snd r = inr true
  /\ trace (fst r) = []
  /\ camera_matrix (self (fst r)) = Some (mk_ndarray [] [PStr "abc"])
  /\ camera_matrix (self (fst r))
     <> camera_matrix (self CalibrationScenario.calibrated)
  /\ dist_coeffs (self (fst r))
     <> dist_coeffs (self CalibrationScenario.calibrated).
Proof.
  cbv zeta.
  repeat split; try reflexivity; cbn; discriminate.
Qed.

(** A file that holds ["camera_matrix"] but not ["dist_coeffs"]: the call
    returns [False] after the camera matrix has already been replaced. *)
Remark load_missing_dist_coeffs :
  let file := PDict [("camera_matrix"%string,
                      PList [PList [PFloat 1; PFloat 0; PFloat 0];
                             PList [PFloat 0; PFloat 1; PFloat 0];
                             PList [PFloat 0; PFloat 0; PFloat 1]])] in
  let r := load_calibration (inr file) CalibrationScenario.calibrated in
  snd r = inr false
  /\ camera_matrix (self (fst r))
     = Some (mk_ndarray [3%nat; 3%nat]
                        [PFloat 1; PFloat 0; PFloat 0;
                         PFloat 0; PFloat 1; PFloat 0;
                         PFloat 0; PFloat 0; PFloat 1])
  /\ dist_coeffs (self (fst r)) = dist_coeffs (self CalibrationScenario.calibrated).
Proof.
  cbv zeta. repeat split.
Qed.

(* ================================================================== *)
(** * Simulated second view *)
(* ================================================================== *)

Section DictBuild.

Import PyDict.

Context {V W : Type}.

Lemma set_fresh {U : Type} (k : string) (v : U) (d : dict U) :
  ~ In k (keys d) -> set k v d = d ++ [(k, v)].
Proof.
  unfold keys. induction d as [| [k' v'] d IH]; cbn; intros Hn.
  - reflexivity.
  - destruct (String.eqb_spec k k') as [-> | Hne].
    + exfalso; apply Hn; now left.
    + rewrite IH; [reflexivity | tauto].
Qed.

(** Filling a fresh dictionary from the items of a well-formed one, one
    assignment per item, gives the items in the same order. *)
Lemma fill_from_items (g : V -> W) (d : dict V) (acc : dict W) :
  NoDup (keys d) ->
  (forall k, In k (keys d) -> ~ In k (keys acc)) ->
  fold_left (fun out '(k, v) => set k (g v) out) d acc
  = acc ++ map (fun kv => (fst kv, g (snd kv))) d.
Proof.
  revert acc. induction d as [| [k v] d IH]; intros acc Hnd Hfresh; cbn.
  - now rewrite app_nil_r.
  - cbn in Hnd. inversion Hnd as [| ? ? Hk Hnd']; subst.
    rewrite set_fresh by (apply Hfresh; now left).
    rewrite IH.
    + now rewrite <- app_assoc.
    + exact Hnd'.
    + intros k' Hin. unfold keys. rewrite map_app, in_app_iff. cbn.
      intros [Hacc | [E | []]].
      * apply (Hfresh k'); [now right | exact Hacc].
      * subst. contradiction.
Qed.

Lemma keys_map_values (g : V -> W) (d : dict V) :
  keys (map (fun kv => (fst kv, g (snd kv))) d) = keys d.
Proof. unfold keys. rewrite map_map. reflexivity. Qed.

End DictBuild.

Import SimulateSecondView.

(** The horizontally mirrored keypoint. *)
Lemma flip_keypoints_items (keypoints : frame) (w : R) :
  PyDict.wf keypoints ->
  flip_keypoints_horizontally keypoints w
  = map (fun kv => (fst kv,
                    mk_keypoint (w - x (snd kv)) (y (snd kv)) (z (snd kv)) (vis (snd kv))))
        keypoints.
Proof.
  intros Hwf. unfold flip_keypoints_horizontally.
  rewrite (fill_from_items
             (fun c => mk_keypoint (w - x c) (y c) (z c) (vis c)) keypoints []).
  - reflexivity.
  - exact Hwf.
  - intros k _ [].
Qed.

Lemma flip_keypoints_keys (keypoints : frame) (w : R) :
  PyDict.wf keypoints ->
  PyDict.keys (flip_keypoints_horizontally keypoints w) = PyDict.keys keypoints.
Proof.
  intros Hwf. rewrite flip_keypoints_items by exact Hwf.
  apply (keys_map_values
           (fun c => mk_keypoint (w - x c) (y c) (z c) (vis c))).
Qed.

(** X1. Mirroring a frame keeps its joints and their order, and mirroring
    twice with the same width gives the frame back. *)
Theorem flip_keypoints_involution (keypoints : frame) (w : R) :
  PyDict.wf keypoints ->
  PyDict.keys (flip_keypoints_horizontally keypoints w) = PyDict.keys keypoints
  /\ flip_keypoints_horizontally (flip_keypoints_horizontally keypoints w) w
     = keypoints.
Proof.
  intros Hwf. split; [apply flip_keypoints_keys; exact Hwf|].
  rewrite (flip_keypoints_items (flip_keypoints_horizontally keypoints w)).
  - rewrite flip_keypoints_items by exact Hwf.
    rewrite map_map. cbn [fst snd x y z vis].
    rewrite <- (map_id keypoints) at 2.
    apply map_ext. intros [k [cx0 cy0 cz0 cv0]]. cbn.
    do 2 f_equal. ring.
  - unfold PyDict.wf. rewrite flip_keypoints_keys by exact Hwf. exact Hwf.
Qed.

Lemma flip_keypoints_involution_witness :
  let kp := [("joint_0"%string, mk_keypoint 100 200 0 1);
             ("joint_1"%string, mk_keypoint 320 240 0 1)] in
  flip_keypoints_horizontally (flip_keypoints_horizontally kp 640) 640 = kp.
Proof.
  intros kp.
  refine (proj2 (flip_keypoints_involution kp 640 _)).
  unfold PyDict.wf, kp; cbn.
  repeat constructor; cbn; intuition discriminate.
Defined.

Lemma stereo_simulate_items (keypoints : frame) (w : R) (flag : bool) :
  PyDict.wf keypoints ->
  StereoUtilsKeypoints.simulate_second_view keypoints w flag
  = map (fun kv =>
           (fst kv,
            if flag
            then mk_keypoint (w - x (snd kv)) (y (snd kv)) (z (snd kv)) (vis (snd kv))
            else mk_keypoint (x (snd kv)) (480 - y (snd kv)) (z (snd kv)) (vis (snd kv))))
        keypoints.
Proof.
  intros Hwf. unfold StereoUtilsKeypoints.simulate_second_view.
  destruct flag.
  - rewrite (fill_from_items
               (fun c => mk_keypoint (w - x c) (y c) (z c) (vis c)) keypoints []);
      [reflexivity | exact Hwf | intros k _ []].
  - rewrite (fill_from_items
               (fun c => mk_keypoint (x c) (480 - y c) (z c) (vis c)) keypoints []);
      [reflexivity | exact Hwf | intros k _ []].
Qed.

(** X2. The keypoint mirror of [stereo_utils.py] keeps the joints and their
    order in both directions and undoes itself when applied twice; in the
    horizontal direction it is the mirror of [simulate_second_view.py], and
    in the vertical direction it replaces [y] by [480 - y] whatever frame
    width is passed. *)
Theorem stereo_simulate_second_view_mirror (keypoints : frame) (w : R) (flag : bool) :
  PyDict.wf keypoints ->
  PyDict.keys (StereoUtilsKeypoints.simulate_second_view keypoints w flag)
  = PyDict.keys keypoints
  /\ StereoUtilsKeypoints.simulate_second_view
       (StereoUtilsKeypoints.simulate_second_view keypoints w flag) w flag
     = keypoints
  /\ StereoUtilsKeypoints.simulate_second_view keypoints w true
     = flip_keypoints_horizontally keypoints w
  /\ StereoUtilsKeypoints.simulate_second_view keypoints w false
     = map (fun kv =>
              (fst kv,
               mk_keypoint (x (snd kv)) (480 - y (snd kv)) (z (snd kv)) (vis (snd kv))))
           keypoints.
Proof.
  intros Hwf.
  assert (Hkeys : PyDict.keys (StereoUtilsKeypoints.simulate_second_view keypoints w flag)
                  = PyDict.keys keypoints).
  { rewrite stereo_simulate_items by exact Hwf.
    unfold PyDict.keys. rewrite map_map. reflexivity. }
  split; [exact Hkeys |
          split; [| split; [reflexivity | apply stereo_simulate_items; exact Hwf]]].
  rewrite (stereo_simulate_items
             (StereoUtilsKeypoints.simulate_second_view keypoints w flag)).
  - rewrite stereo_simulate_items by exact Hwf.
    rewrite map_map. cbn [fst snd].
    rewrite <- (map_id keypoints) at 2.
    apply map_ext. intros [k [cx0 cy0 cz0 cv0]].
    destruct flag; cbn; do 2 f_equal; ring.
  - unfold PyDict.wf. rewrite Hkeys. exact Hwf.
Qed.

Lemma stereo_simulate_second_view_mirror_witness :
  let kp := [("joint_0"%string, mk_keypoint 100 200 0 1);
             ("joint_1"%string, mk_keypoint 320 240 0 1)] in
  StereoUtilsKeypoints.simulate_second_view
    (StereoUtilsKeypoints.simulate_second_view kp 640 false) 640 false = kp.
Proof.
  intros kp.
  refine (proj1 (proj2 (stereo_simulate_second_view_mirror kp 640 false _))).
  unfold PyDict.wf, kp; cbn.
  repeat constructor; cbn; intuition discriminate.
Defined.

Lemma simulate_second_view_map (original_data : list frame) (w : R) :
  simulate_second_view original_data w
  = map (fun fr => flip_keypoints_horizontally fr w) original_data.
Proof.
  unfold simulate_second_view.
  rewrite (fold_left_snoc _ (fun fr => flip_keypoints_horizontally fr w));
    reflexivity.
Qed.

Lemma filter_all_true {A : Type} (p : A -> bool) (l : list A) :
  (forall a, In a l -> p a = true) -> filter p l = l.
Proof.
  induction l as [| a l IH]; cbn; intros H.
  - reflexivity.
  - rewrite (H a) by now left.
    f_equal. apply IH. intros a' Ha. apply H. now right.
Qed.

(** X3. Triangulating a session against its simulated second view drops
    nothing: the result has one joint map per frame of the session, and the
    map of a frame holds exactly the joints of that frame, in their order. *)
Theorem triangulate_against_flipped_view
        (svd : mat4 -> vec4) (view : list frame) (w : R) (M1 M2 : cam_matrix) :
  Forall PyDict.wf view ->
  List.length (triangulate_all_frames svd view (simulate_second_view view w) M1 M2)
  = List.length view
  /\ forall i fr,
      nth_error view i = Some fr ->
      exists joints,
        nth_error (triangulate_all_frames svd view (simulate_second_view view w) M1 M2) i
        = Some joints
        /\ PyDict.keys joints = PyDict.keys fr.
Proof.
  intros Hwf.
  rewrite triangulate_all_frames_map, simulate_second_view_map.
  split.
  - rewrite length_map, length_combine, length_map. apply Nat.min_id.
  - intros i fr Hi.
    exists (triangulate_frame svd fr (flip_keypoints_horizontally fr w) M1 M2).
    assert (Hfr : PyDict.wf fr).
    { rewrite Forall_forall in Hwf. apply Hwf. eapply nth_error_In; eassumption. }
    split.
    + rewrite nth_error_map.
      rewrite (nth_error_combine _ _ i fr (flip_keypoints_horizontally fr w)).
      * reflexivity.
      * exact Hi.
      * rewrite nth_error_map, Hi. reflexivity.
    + rewrite triangulate_frame_keys by exact Hfr.
      apply filter_all_true. intros k Hk.
      apply mem_true_iff. rewrite flip_keypoints_keys by exact Hfr. exact Hk.
Qed.

Lemma triangulate_against_flipped_view_witness :
  let kp := mk_keypoint 100 200 0 1 in
  let view := [[("joint_0"%string, kp); ("joint_1"%string, kp)]; [("joint_0"%string, kp)]] in
  List.length
    (triangulate_all_frames (fun _ => mk_vec4 0 0 0 1) view
       (simulate_second_view view 640)
       (fst (create_stereo_camera_matrices 5 640 320 360))
       (snd (create_stereo_camera_matrices 5 640 320 360)))
  = 2%nat.
Proof.
  intros kp view.
  refine (proj1 (triangulate_against_flipped_view (fun _ => mk_vec4 0 0 0 1) view 640
                   (fst (create_stereo_camera_matrices 5 640 320 360))
                   (snd (create_stereo_camera_matrices 5 640 320 360)) _)).
  unfold view, PyDict.wf; cbn.
  repeat constructor; cbn; intuition discriminate.
Defined.

(* ================================================================== *)
(** * Triangulating a pixel pair on one image row *)
(* ================================================================== *)

Section SameRow.

Variables b f cx cy : R.
Variables x1 x2 yy : R.

Let ML := fst (create_stereo_camera_matrices b f cx cy).
Let MR := snd (create_stereo_camera_matrices b f cx cy).
Let A := linear_system (x1, yy) (x2, yy) ML MR.

(** The system of two pixels on one row, written out. *)
Lemma same_row_system :
  A = mk_mat4 (mk_vec4 (- f) 0 (x1 - cx) 0)
              (mk_vec4 0 (- f) (yy - cy) 0)
              (mk_vec4 (- f) 0 (x2 - cx) (f * b))
              (mk_vec4 0 (- f) (yy - cy) 0).
Proof.
  unfold A, linear_system, scale_sub, ML, MR; cbn.
  f_equal; f_equal; ring.
Qed.

(** Two pixels on one row always have an exact solution. *)
Lemma same_row_solution :
  mat_vec A (mk_vec4 (b * (x1 - cx)) (b * (yy - cy)) (f * b) (x1 - x2)) = zero4.
Proof.
  rewrite same_row_system. unfold mat_vec, dot, zero4; cbn.
  f_equal; ring.
Qed.

Lemma same_row_solution_nonzero :
  f <> 0 -> b <> 0 ->
  0 < norm2 (mk_vec4 (b * (x1 - cx)) (b * (yy - cy)) (f * b) (x1 - x2)).
Proof.
  intros Hf Hb. unfold norm2, dot; cbn.
  assert (Hfb : f * b <> 0)
    by (apply Rmult_integral_contrapositive_currified; assumption).
  set (p := b * (x1 - cx)). set (q := b * (yy - cy)).
  set (r := f * b) in *. set (s := x1 - x2).
  assert (0 <= p * p) by nra. assert (0 <= q * q) by nra.
  assert (0 < r * r) by nra. assert (0 <= s * s) by nra.
  lra.
Qed.

(** Every solution is a multiple of that one. *)
Lemma same_row_kernel (v : vec4) :
  f <> 0 -> b <> 0 ->
  mat_vec A v = zero4 ->
  f * c0 v = (x1 - cx) * c2 v
  /\ f * c1 v = (yy - cy) * c2 v
  /\ f * b * c3 v = (x1 - x2) * c2 v.
Proof.
  intros Hf Hb. rewrite same_row_system.
  destruct v as [v0 v1 v2 v3]. unfold mat_vec, dot, zero4; cbn.
  intros Hk. injection Hk as E0 E1 E2 _.
  repeat split; lra.
Qed.

Lemma same_row_svd_solves (v : vec4) :
  f <> 0 -> b <> 0 -> last_right_singular A v -> mat_vec A v = zero4.
Proof.
  intros Hf Hb Hsvd.
  apply (last_right_singular_kernel A v _ Hsvd (same_row_solution_nonzero Hf Hb)).
  apply same_row_solution.
Qed.

(** The third coordinate of an admissible [Vt[-1]] is never zero. *)
Lemma same_row_c2_nonzero (v : vec4) :
  f <> 0 -> b <> 0 -> last_right_singular A v -> c2 v <> 0.
Proof.
  intros Hf Hb Hsvd E.
  destruct (same_row_kernel v Hf Hb (same_row_svd_solves v Hf Hb Hsvd))
    as (K0 & K1 & K3).
  destruct Hsvd as [Hu _]. rewrite E in K0, K1, K3.
  assert (H0 : c0 v = 0).
  { apply (Rmult_eq_reg_l f); [lra | exact Hf]. }
  assert (H1 : c1 v = 0).
  { apply (Rmult_eq_reg_l f); [lra | exact Hf]. }
  assert (H3 : c3 v = 0).
  { apply (Rmult_eq_reg_l (f * b)); [lra |].
    apply Rmult_integral_contrapositive_currified; assumption. }
  unfold norm2, dot in Hu. rewrite H0, H1, H3, E in Hu. lra.
Qed.

(** With a non-zero disparity the solution dehomogenises to a finite point. *)
Lemma same_row_point (v : vec4) :
  f <> 0 -> b <> 0 -> x1 <> x2 -> last_right_singular A v ->
  dehomogenize v
  = (Fin (b * (x1 - cx) / (x1 - x2)),
     Fin (b * (yy - cy) / (x1 - x2)),
     Fin (f * b / (x1 - x2))).
Proof.
  intros Hf Hb Hx Hsvd.
  destruct (same_row_kernel v Hf Hb (same_row_svd_solves v Hf Hb Hsvd))
    as (K0 & K1 & K3).
  pose proof (same_row_c2_nonzero v Hf Hb Hsvd) as H2.
  assert (Hfb : f * b <> 0)
    by (apply Rmult_integral_contrapositive_currified; assumption).
  assert (Hd : x1 - x2 <> 0) by lra.
  assert (H3 : c3 v <> 0).
  { intros E. rewrite E in K3.
    assert ((x1 - x2) * c2 v = 0) by lra.
    apply Rmult_integral in H as [H | H]; contradiction. }
  assert (E2 : c2 v = f * b * c3 v / (x1 - x2)) by (rewrite K3; field; exact Hd).
  assert (E0 : c0 v = b * (x1 - cx) * c3 v / (x1 - x2)).
  { apply (Rmult_eq_reg_l f); [| exact Hf]. rewrite K0, E2. field. exact Hd. }
  assert (E1 : c1 v = b * (yy - cy) * c3 v / (x1 - x2)).
  { apply (Rmult_eq_reg_l f); [| exact Hf]. rewrite K1, E2. field. exact Hd. }
  unfold dehomogenize. rewrite !fdiv_finite by exact H3.
  replace (c0 v / c3 v) with (b * (x1 - cx) / (x1 - x2))
    by (rewrite E0; field; split; assumption).
  replace (c1 v / c3 v) with (b * (yy - cy) / (x1 - x2))
    by (rewrite E1; field; split; assumption).
  replace (c2 v / c3 v) with (f * b / (x1 - x2))
    by (rewrite E2 at 1; field; split; assumption).
  reflexivity.
Qed.

End SameRow.

(** X4. For two pixels on the same image row with different columns, seen
    by a rig with non-zero focal length and baseline, [triangulate_point]
    returns the point [(b (x1 - cx) / d, b (y - cy) / d, f b / d)] with
    [d = x1 - x2] the disparity, whichever admissible vector the SVD
    returns. *)
Theorem triangulate_point_same_row
        (svd : mat4 -> vec4) (b f cx cy x1 x2 yy : R) :
  let ML := fst (create_stereo_camera_matrices b f cx cy) in
  let MR := snd (create_stereo_camera_matrices b f cx cy) in
  f <> 0 -> b <> 0 -> x1 <> x2 ->
  last_right_singular (linear_system (x1, yy) (x2, yy) ML MR)
                      (svd (linear_system (x1, yy) (x2, yy) ML MR)) ->
  triangulate_point svd (x1, yy) (x2, yy) ML MR
  = (Fin (b * (x1 - cx) / (x1 - x2)),
     Fin (b * (yy - cy) / (x1 - x2)),
     Fin (f * b / (x1 - x2))).
Proof.
  intros ML MR Hf Hb Hx Hsvd.
  unfold triangulate_point.
  apply same_row_point; assumption.
Qed.

(** A unit solution of the same-row system, used to instantiate the SVD. *)
Lemma same_row_unit_solution (b f cx cy x1 x2 yy : R) :
  f <> 0 -> b <> 0 ->
  let w := mk_vec4 (b * (x1 - cx)) (b * (yy - cy)) (f * b) (x1 - x2) in
  last_right_singular
    (linear_system (x1, yy) (x2, yy)
                   (fst (create_stereo_camera_matrices b f cx cy))
                   (snd (create_stereo_camera_matrices b f cx cy)))
    (scale (/ sqrt (norm2 w)) w).
Proof.
  intros Hf Hb w.
  apply kernel_last_right_singular.
  - apply unit_direction. apply same_row_solution_nonzero; assumption.
  - rewrite mat_vec_scale. unfold w. rewrite same_row_solution.
    unfold scale, zero4; cbn. f_equal; ring.
Qed.

Lemma triangulate_point_same_row_witness :
  let w := mk_vec4 (10 * (100 - 320)) (10 * (200 - 240)) (640 * 10) (100 - 80) in
  triangulate_point (fun _ => scale (/ sqrt (norm2 w)) w) (100, 200) (80, 200)
                    (fst (create_stereo_camera_matrices 10 640 320 240))
                    (snd (create_stereo_camera_matrices 10 640 320 240))
  = (Fin (10 * (100 - 320) / (100 - 80)),
     Fin (10 * (200 - 240) / (100 - 80)),
     Fin (640 * 10 / (100 - 80))).
Proof.
  intros w.
  apply (triangulate_point_same_row (fun _ => scale (/ sqrt (norm2 w)) w)
                                    10 640 320 240 100 80 200).
  - lra.
  - lra.
  - lra.
  - apply (same_row_unit_solution 10 640 320 240 100 80 200); lra.
Defined.

(** X6. The two depth routes agree: for two pixels on one row with non-zero
    disparity [d = x1 - x2], the depth coordinate returned by
    [triangulate_point] is the pixel that [depth_from_disparity] computes
    from a floating-point disparity [d] with the same baseline and focal
    length. *)
Theorem triangulated_depth_is_depth_from_disparity
        (svd : mat4 -> vec4) (b f cx cy x1 x2 yy : R) :
  let ML := fst (create_stereo_camera_matrices b f cx cy) in
  let MR := snd (create_stereo_camera_matrices b f cx cy) in
  f <> 0 -> b <> 0 -> x1 <> x2 ->
  last_right_singular (linear_system (x1, yy) (x2, yy) ML MR)
                      (svd (linear_system (x1, yy) (x2, yy) ML MR)) ->
  depth_from_disparity (FloatMap [[x1 - x2]]) b f
  = [[snd (triangulate_point svd (x1, yy) (x2, yy) ML MR)]].
Proof.
  intros ML MR Hf Hb Hx Hsvd.
  unfold triangulate_point.
  rewrite (same_row_point b f cx cy x1 x2 yy _ Hf Hb Hx Hsvd).
  unfold depth_from_disparity; cbn [map snd].
  rewrite depth_pixel_float. unfold mask_zero_float.
  destruct (Req_dec_T (x1 - x2) 0) as [E | _]; [lra |].
  do 3 f_equal. field. lra.
Qed.

Lemma triangulated_depth_is_depth_from_disparity_witness :
  let w := mk_vec4 (10 * (100 - 320)) (10 * (200 - 240)) (640 * 10) (100 - 80) in
  depth_from_disparity (FloatMap [[100 - 80]]) 10 640
  = [[snd (triangulate_point (fun _ => scale (/ sqrt (norm2 w)) w) (100, 200) (80, 200)
                             (fst (create_stereo_camera_matrices 10 640 320 240))
                             (snd (create_stereo_camera_matrices 10 640 320 240)))]].
Proof.
  intros w.
  apply (triangulated_depth_is_depth_from_disparity
           (fun _ => scale (/ sqrt (norm2 w)) w) 10 640 320 240 100 80 200).
  - lra.
  - lra.
  - lra.
  - apply (same_row_unit_solution 10 640 320 240 100 80 200); lra.
Defined.

Lemma get_map_values {V W : Type} (g : V -> W) (k : string) (d : PyDict.dict V) :
  PyDict.get k (map (fun kv => (fst kv, g (snd kv))) d)
  = option_map g (PyDict.get k d).
Proof.
  induction d as [| [k' v] d IH]; cbn.
  - reflexivity.
  - destruct (String.eqb k k'); [reflexivity | exact IH].
Qed.

(** X7. In a session triangulated against its own mirrored view of width
    [w], the depth of a joint at column [x] off the mirror axis
    ([2 x <> w]) is [f b / (2 x - w)]. *)
Theorem flipped_view_joint_depth
        (svd : mat4 -> vec4) (fr : frame) (w b f cx cy : R)
        (k : string) (c : keypoint) :
  let ML := fst (create_stereo_camera_matrices b f cx cy) in
  let MR := snd (create_stereo_camera_matrices b f cx cy) in
  PyDict.wf fr ->
  PyDict.get k fr = Some c ->
  f <> 0 -> b <> 0 ->
  2 * x c <> w ->
  last_right_singular (linear_system (x c, y c) (w - x c, y c) ML MR)
                      (svd (linear_system (x c, y c) (w - x c, y c) ML MR)) ->
  exists j,
    PyDict.get k (triangulate_frame svd fr (flip_keypoints_horizontally fr w) ML MR)
    = Some j
    /\ coord_Z j = Fin (f * b / (2 * x c - w)).
Proof.
  intros ML MR Hwf Hget Hf Hb Hoff Hsvd.
  assert (Hget' : PyDict.get k (flip_keypoints_horizontally fr w)
                  = Some (mk_keypoint (w - x c) (y c) (z c) (vis c))).
  { rewrite flip_keypoints_items by exact Hwf.
    rewrite (get_map_values (fun c => mk_keypoint (w - x c) (y c) (z c) (vis c))).
    rewrite Hget. reflexivity. }
  rewrite (triangulate_frame_get svd fr _ ML MR k c _ Hget Hget').
  cbn [x y].
  assert (N : x c <> w - x c) by lra.
  unfold triangulate_point.
  rewrite (same_row_point b f cx cy (x c) (w - x c) (y c) _ Hf Hb N Hsvd).
  eexists. split; [reflexivity |].
  cbn. f_equal. field. lra.
Qed.

Lemma flipped_view_joint_depth_witness :
  let fr := [("joint_0"%string, mk_keypoint 100 200 0 1)] in
  let w := mk_vec4 (10 * (100 - 320)) (10 * (200 - 240)) (640 * 10) (100 - (640 - 100)) in
  exists j,
    PyDict.get "joint_0"
               (triangulate_frame (fun _ => scale (/ sqrt (norm2 w)) w) fr
                  (flip_keypoints_horizontally fr 640)
                  (fst (create_stereo_camera_matrices 10 640 320 240))
                  (snd (create_stereo_camera_matrices 10 640 320 240)))
    = Some j
    /\ coord_Z j = Fin (640 * 10 / (2 * 100 - 640)).
Proof.
  intros fr w.
  apply (flipped_view_joint_depth (fun _ => scale (/ sqrt (norm2 w)) w) fr
                                  640 10 640 320 240 "joint_0"
                                  (mk_keypoint 100 200 0 1)).
  - unfold PyDict.wf, fr; cbn. repeat constructor. intros [].
  - reflexivity.
  - lra.
  - lra.
  - cbn [x]. lra.
  - cbn [x y].
    apply (same_row_unit_solution 10 640 320 240 100 (640 - 100) 200); lra.
Defined.

(* ================================================================== *)
(** * Batch DLT and the depth map *)
(* ================================================================== *)

(** X8. [triangulate_points] returns one point per zipped pair: its length
    is the smaller of the two input lengths, and entry [i] is the DLT point
    of the [i]-th left and right pixels. *)
Theorem triangulate_points_shape
        (svd : mat4 -> vec4) (points_left points_right : list point2)
        (M1 M2 : cam_matrix) :
  List.length (triangulate_points svd points_left points_right M1 M2)
  = Nat.min (List.length points_left) (List.length points_right)
  /\ forall i p q,
      nth_error points_left i = Some p ->
      nth_error points_right i = Some q ->
      nth_error (triangulate_points svd points_left points_right M1 M2) i
      = Some (dehomogenize (svd (StereoUtils.linear_system p q M1 M2))).
Proof.
  assert (Hmap : triangulate_points svd points_left points_right M1 M2
                 = map (fun pq => dehomogenize
                                    (svd (StereoUtils.linear_system (fst pq) (snd pq) M1 M2)))
                       (combine points_left points_right)).
  { unfold triangulate_points.
    rewrite (fold_left_snoc _
               (fun pq => dehomogenize
                            (svd (StereoUtils.linear_system (fst pq) (snd pq) M1 M2)))).
    - reflexivity.
    - intros r [p q]. reflexivity. }
  rewrite Hmap. split.
  - rewrite length_map, length_combine. reflexivity.
  - intros i p q Hp Hq.
    rewrite nth_error_map, (nth_error_combine _ _ _ _ _ Hp Hq). reflexivity.
Qed.

Lemma triangulate_points_shape_witness :
  List.length
    (triangulate_points (fun _ => mk_vec4 0 0 0 1)
                        [(100, 200); (120, 210); (90, 80)] [(80, 200); (95, 210)]
                        (fst (create_stereo_camera_matrices 10 640 320 240))
                        (snd (create_stereo_camera_matrices 10 640 320 240)))
  = 2%nat.
Proof.
  exact (proj1 (triangulate_points_shape (fun _ => mk_vec4 0 0 0 1)
                  [(100, 200); (120, 210); (90, 80)] [(80, 200); (95, 210)]
                  (fst (create_stereo_camera_matrices 10 640 320 240))
                  (snd (create_stereo_camera_matrices 10 640 320 240)))).
Defined.

(** X9. On an integer disparity map the zero mask changes nothing: with
    [baseline * focal_length] non-zero, a pixel of disparity zero comes out
    as [inf] and every other pixel as [baseline * focal_length / d]. *)
Theorem depth_from_disparity_int (rows : list (list Z)) (b f : R) :
  b * f <> 0 ->
  depth_from_disparity (IntMap rows) b f
  = map (map (fun d => if Z.eqb d 0 then Inf else Fin (b * f / IZR d))) rows.
Proof.
  intros Hbf. unfold depth_from_disparity. rewrite map_map.
  apply map_ext; intros row. rewrite map_map.
  apply map_ext; intros d.
  unfold mask_zero_int, fdiv.
  destruct (Z.eqb_spec d 0) as [-> | Hd].
  - cbn. destruct (Req_dec_T 0 0) as [_ | N]; [| now elim N].
    destruct (Req_dec_T (b * f) 0); [contradiction | reflexivity].
  - destruct (Req_dec_T (IZR d) 0) as [E | _]; [| reflexivity].
    apply eq_IZR_R0 in E. contradiction.
Qed.

Lemma depth_from_disparity_int_witness :
  depth_from_disparity (IntMap [[0%Z; 16%Z]; [32%Z; 0%Z]]) 10 640
  = [[Inf; Fin (10 * 640 / 16)]; [Fin (10 * 640 / 32); Inf]].
Proof.
  apply (depth_from_disparity_int [[0%Z; 16%Z]; [32%Z; 0%Z]] 10 640).
  lra.
Defined.

(** X10. On a floating-point map with [baseline * focal_length] positive,
    depth decreases as a positive disparity grows, but a pixel of disparity
    exactly zero is reported nearer than any pixel whose disparity lies
    strictly between 0 and 0.1. *)
Theorem depth_order_float (b f d1 d2 : R) :
  0 < b * f ->
  exists z0 z1 z2,
    depth_from_disparity (FloatMap [[0; d1; d2]]) b f = [[Fin z0; Fin z1; Fin z2]]
    /\ (0 < d1 -> d1 <= d2 -> z2 <= z1)
    /\ (0 < d1 -> d1 < 1 / 10 -> z0 < z1).
Proof.
  intros Hbf.
  exists (b * f / (1 / 10)), (b * f / mask_zero_float d1), (b * f / mask_zero_float d2).
  split; [| split].
  - unfold depth_from_disparity; cbn [map].
    rewrite !depth_pixel_float.
    unfold mask_zero_float at 1.
    destruct (Req_dec_T 0 0) as [_ | N]; [reflexivity | now elim N].
  - intros H1 H12. unfold mask_zero_float.
    destruct (Req_dec_T d1 0) as [E | _]; [lra |].
    destruct (Req_dec_T d2 0) as [E | _]; [lra |].
    unfold Rdiv. apply Rmult_le_compat_l; [lra |].
    apply Rinv_le_contravar; lra.
  - intros H1 H2. unfold mask_zero_float.
    destruct (Req_dec_T d1 0) as [E | _]; [lra |].
    unfold Rdiv. apply Rmult_lt_compat_l; [lra |].
    apply Rinv_lt_contravar; [| lra].
    apply Rmult_lt_0_compat; lra.
Qed.

Lemma depth_order_float_witness :
  exists z0 z1 z2,
    depth_from_disparity (FloatMap [[0; 1 / 16; 1 / 8]]) 10 640
    = [[Fin z0; Fin z1; Fin z2]]
    /\ (0 < 1 / 16 -> 1 / 16 <= 1 / 8 -> z2 <= z1)
    /\ (0 < 1 / 16 -> 1 / 16 < 1 / 10 -> z0 < z1).
Proof.
  apply (depth_order_float 10 640 (1 / 16) (1 / 8)).
  lra.
Defined.

(* ================================================================== *)
(** * Calibration from a directory of images *)
(* ================================================================== *)

Section BatchCalibration.

Import CalibrationBatch PyFormat.

Variable image : Type.
Variable cvtColor_gray : image -> image.
Variable findChessboardCorners : image -> nat * nat -> option (list (R * R)).
Variable cornerSubPix : image -> list (R * R) -> list (R * R).
Variable drawChessboardCorners : image -> nat * nat -> list (R * R) -> image.
Variable calibrateCamera :
  list ndarray -> list ndarray -> nat * nat ->
  R * ndarray * ndarray * list ndarray * list ndarray.
Variable imread : string -> option image.
Variable shape_hw : image -> nat * nat.

Let corners_of (size : nat * nat) (paths : list string) : list ndarray :=
  accepted_corners image cvtColor_gray findChessboardCorners cornerSubPix imread
                   size paths.

Let loop (paths : list string) (total s : nat) : M nat :=
  process_images image cvtColor_gray findChessboardCorners cornerSubPix
                 drawChessboardCorners imread paths total s.

(** The calibrator after a list of image-point arrays has been accepted. *)
Let collected (imgs : list ndarray) (c : CameraCalibrator) : CameraCalibrator :=
  fold_left (fun c i => append_points (objp c) i c) imgs c.

Lemma collected_fields (imgs : list ndarray) (c : CameraCalibrator) :
  chessboard_size (collected imgs c) = chessboard_size c
  /\ objp (collected imgs c) = objp c
  /\ camera_matrix (collected imgs c) = camera_matrix c
  /\ dist_coeffs (collected imgs c) = dist_coeffs c
  /\ imgpoints (collected imgs c) = imgpoints c ++ imgs
  /\ objpoints (collected imgs c) = objpoints c ++ repeat (objp c) (List.length imgs).
Proof.
  revert c. induction imgs as [| i imgs IH]; intros c; cbn.
  - rewrite !app_nil_r. repeat split.
  - destruct (IH (append_points (objp c) i c)) as (H1 & H2 & H3 & H4 & H5 & H6).
    fold (collected imgs (append_points (objp c) i c)).
    rewrite H1, H2, H3, H4, H5, H6. cbn.
    rewrite <- !app_assoc. repeat split.
Qed.

Lemma bind_inr {A B : Type} (m : M A) (k : A -> M B) (s s' : state) (a : A) :
  m s = (s', inr a) -> bind m k s = k a s'.
Proof. intros H. unfold bind. rewrite H. reflexivity. Qed.

Lemma bind_inl {A B : Type} (m : M A) (k : A -> M B) (s s' : state) (e : py_exn) :
  m s = (s', inl e) -> bind m k s = (s', inl e).
Proof. intros H. unfold bind. rewrite H. reflexivity. Qed.

Lemma emit_run (e : event) (s : state) :
  emit e s = (mk_state (self s) (trace s ++ [e]), inr tt).
Proof. reflexivity. Qed.

Lemma outcome_eq {A : Type} (c c' : CameraCalibrator) (t t' : list event) (a a' : A) :
  c = c' -> t = t' -> a = a' ->
  (mk_state c t, @inr py_exn A a) = (mk_state c' t', inr a').
Proof. intros -> -> ->. reflexivity. Qed.

(** What the loop over the image paths does: it accepts the readable
    images on which the board is found, counts them, and only prints. *)
Lemma process_images_spec (size : nat * nat) (paths : list string)
      (total s : nat) (st : state) :
  chessboard_size (self st) = size ->
  exists prints,
    Forall is_print prints
    /\ loop paths total s st
       = (mk_state (collected (corners_of size paths) (self st))
                   (trace st ++ prints),
          inr (s + List.length (corners_of size paths))%nat).
Proof.
  revert s st. induction paths as [| p paths IH]; intros s st Hsize.
  - exists []. split; [constructor |].
    cbn. rewrite app_nil_r, Nat.add_0_r. destruct st; reflexivity.
  - unfold loop, corners_of in *. cbn [process_images accepted_corners flat_map].
    destruct (imread p) as [img |].
    + unfold bind at 1, add_calibration_image, bind at 1, get_self.
      rewrite Hsize.
      destruct (findChessboardCorners (cvtColor_gray img) size) as [corners |].
      * unfold bind at 1, update, ret. cbn [fst self trace].
        unfold bind at 1, emit. cbn [self trace].
        match goal with
        | |- context [process_images _ _ _ _ _ _ paths total (S s) ?st'] =>
            destruct (IH (S s) st') as (prints & Hp & Heq)
        end.
        { cbn. exact Hsize. }
        rewrite Heq. cbn [self trace].
        eexists (_ :: prints).
        split;
          [| apply outcome_eq;
             [reflexivity | rewrite <- app_assoc; reflexivity
             | cbn [app List.length]; unfold accepted_corners; lia]].
        constructor; [exact I | exact Hp].
      * unfold ret. cbn [fst].
        unfold bind at 1, emit. cbn [self trace].
        match goal with
        | |- context [process_images _ _ _ _ _ _ paths total s ?st'] =>
            destruct (IH s st') as (prints & Hp & Heq)
        end.
        { cbn. exact Hsize. }
        rewrite Heq. cbn [self trace app].
        eexists (_ :: prints).
        split;
          [| apply outcome_eq;
             [reflexivity | rewrite <- app_assoc; reflexivity | reflexivity]].
        constructor; [exact I | exact Hp].
    + unfold bind at 1, emit. cbn [self trace].
      match goal with
      | |- context [process_images _ _ _ _ _ _ paths total s ?st'] =>
          destruct (IH s st') as (prints & Hp & Heq)
      end.
      { cbn. exact Hsize. }
      rewrite Heq. cbn [self trace app].
      eexists (_ :: prints).
      split;
        [| apply outcome_eq;
           [reflexivity | rewrite <- app_assoc; reflexivity | reflexivity]].
      constructor; [exact I | exact Hp].
Qed.

Let run (image_dir output_file : string) (size : nat * nat) (square : R)
    (paths : list string) : M bool :=
  calibrate_from_images image cvtColor_gray findChessboardCorners cornerSubPix
                        drawChessboardCorners calibrateCamera imread shape_hw
                        image_dir output_file size square paths.

(** The state in which the loop has finished, for a non-empty path list. *)
Lemma run_prefix (image_dir output_file : string) (size : nat * nat) (square : R)
      (first : string) (rest : list string) (st : state) :
  exists prints,
    Forall is_print prints
    /\ run image_dir output_file size square (first :: rest) st
       = (s <- ret (List.length (corners_of size (first :: rest))) ;;
          if (s <? 5)%nat then
            emit (Print "Not enough successful calibration images") ;;;
            ret false
          else
            image_shape <- imread_shape image imread shape_hw first ;;
            r <- calibrate calibrateCamera image_shape ;;
            if truthy r then
              save_calibration output_file ;;;
              emit (Print ("Calibration saved to " ++ output_file)) ;;;
              ret true
            else
              emit (Print "Calibration failed") ;;;
              ret false)%py
           (mk_state (collected (corners_of size (first :: rest)) (init size square))
                     (trace st ++ prints)).
Proof.
  unfold run, calibrate_from_images.
  rewrite (bind_inr _ _ st (mk_state (init size square) (trace st)) tt eq_refl).
  rewrite (bind_inr _ _ _ _ tt (emit_run _ _)).
  cbn [self trace].
  match goal with
  | |- context [bind (process_images _ _ _ _ _ _ _ _ _) _ ?st'] =>
      destruct (process_images_spec size (first :: rest)
                                    (List.length (first :: rest)) 0 st' eq_refl)
        as (prints & Hp & Heq)
  end.
  unfold loop in Heq.
  eexists (_ :: prints).
  split;
    [| rewrite (bind_inr _ _ _ _ _ Heq); cbn [self trace];
       rewrite (bind_inr (ret _) _ _ _ _ eq_refl);
       rewrite <- app_assoc; reflexivity].
  constructor; [exact I | exact Hp].
Qed.

(** X11. [calibrate_from_images] with fewer than five usable images (none
    at all included) returns [False]; everything it does on the way is
    printing: the solver is not called and no file is written. *)
Theorem calibrate_from_images_insufficient
        (image_dir output_file : string) (size : nat * nat) (square : R)
        (paths : list string) (st : state) :
  (List.length (accepted_corners image cvtColor_gray findChessboardCorners
                                 cornerSubPix imread size paths) < 5)%nat ->
  exists prints c,
    Forall is_print prints
    /\ calibrate_from_images image cvtColor_gray findChessboardCorners cornerSubPix
                             drawChessboardCorners calibrateCamera imread shape_hw
                             image_dir output_file size square paths st
       = (mk_state c (trace st ++ prints), inr false).
Proof.
  intros Hfew. destruct paths as [| first rest].
  - exists [Print ("No images found in " ++ image_dir)], (init size square).
    split; [repeat constructor | reflexivity].
  - destruct (run_prefix image_dir output_file size square first rest st)
      as (prints & Hp & Heq).
    unfold run in Heq. rewrite Heq.
    rewrite (bind_inr (ret _) _ _ _ _ eq_refl).
    apply Nat.ltb_lt in Hfew. unfold corners_of. rewrite Hfew.
    exists (prints ++ [Print "Not enough successful calibration images"]),
           (collected (corners_of size (first :: rest)) (init size square)).
    split.
    + apply Forall_app. split; [exact Hp | repeat constructor].
    + rewrite (bind_inr _ _ _ _ tt (emit_run _ _)).
      cbn [self trace]. rewrite <- app_assoc. reflexivity.
Qed.

(** X13. With five or more usable images but an unreadable first path,
    [calibrate_from_images] raises [AttributeError] when it asks for the
    shape of the first image, before the solver is called. *)
Theorem calibrate_from_images_first_unreadable
        (image_dir output_file : string) (size : nat * nat) (square : R)
        (first : string) (rest : list string) (st : state) :
  (5 <= List.length (accepted_corners image cvtColor_gray findChessboardCorners
                                      cornerSubPix imread size (first :: rest)))%nat ->
  imread first = None ->
  exists prints c,
    Forall is_print prints
    /\ calibrate_from_images image cvtColor_gray findChessboardCorners cornerSubPix
                             drawChessboardCorners calibrateCamera imread shape_hw
                             image_dir output_file size square (first :: rest) st
       = (mk_state c (trace st ++ prints), inl AttributeError).
Proof.
  intros Hmany Hfirst.
  destruct (run_prefix image_dir output_file size square first rest st)
    as (prints & Hp & Heq).
  unfold run in Heq. rewrite Heq.
  rewrite (bind_inr (ret _) _ _ _ _ eq_refl).
  apply Nat.ltb_ge in Hmany. unfold corners_of. rewrite Hmany.
  exists prints, (collected (corners_of size (first :: rest)) (init size square)).
  split; [exact Hp |].
  apply bind_inl. unfold imread_shape. rewrite Hfirst. reflexivity.
Qed.

Lemma calibrate_run_solve (image_shape : nat * nat) (st : state) :
  (5 <= List.length (objpoints (self st)))%nat ->
  calibrate calibrateCamera image_shape st
  = (let '(r, cm, dc, rv, tv) :=
       calibrateCamera (objpoints (self st)) (imgpoints (self st))
                       (snd image_shape, fst image_shape) in
     (mk_state
        (set_tvecs (Some tv)
           (set_rvecs (Some rv)
              (set_dist_coeffs (Some dc)
                 (set_camera_matrix (Some cm) (self st)))))
        (trace st ++ [CalibrateCamera (objpoints (self st)) (imgpoints (self st))
                                      (snd image_shape, fst image_shape)]),
      inr (PFloat r))).
Proof.
  intros Hn. unfold calibrate, bind, get_self.
  apply Nat.ltb_ge in Hn. rewrite Hn. cbn.
  destruct (calibrateCamera (objpoints (self st)) (imgpoints (self st))
                            (snd image_shape, fst image_shape))
    as [[[[r cm] dc] rv] tv].
  reflexivity.
Qed.

Lemma accepted_corners_are_corner_arrays (size : nat * nat) (paths : list string) :
  Forall (fun a => exists cs, a = corners_array cs) (corners_of size paths).
Proof.
  unfold corners_of, accepted_corners.
  induction paths as [| p paths IH]; cbn [flat_map].
  - constructor.
  - apply Forall_app. split; [| exact IH].
    destruct (imread p) as [img |]; [| constructor].
    destruct (findChessboardCorners (cvtColor_gray img) size) as [cs |];
      [| constructor].
    constructor; [| constructor]. eexists. reflexivity.
Qed.

(** X12. With five or more usable images and a readable first path,
    [calibrate_from_images] calls the solver exactly once, on the whole
    dataset and with the first image's size as [(width, height)].  A solver
    result of exactly zero is taken as a failure: [False] is returned and
    nothing is written.  Any other result writes the model once and returns
    [True]; the ["image_shape"] entry written is [imgpoints[0].shape[0:2]],
    the first two dimensions of the corner array of the first accepted
    image. *)
Theorem calibrate_from_images_solves
        (image_dir output_file : string) (size : nat * nat) (square : R)
        (first : string) (rest : list string) (img0 : image) (st : state) :
  let imgs := accepted_corners image cvtColor_gray findChessboardCorners
                               cornerSubPix imread size (first :: rest) in
  let objs := repeat (make_objp size square) (List.length imgs) in
  let sz := (snd (shape_hw img0), fst (shape_hw img0)) in
  (5 <= List.length imgs)%nat ->
  imread first = Some img0 ->
  let '(r, cm, dc, rv, tv) := calibrateCamera objs imgs sz in
  exists prints c cs tl,
    Forall is_print prints
    /\ imgs = corners_array cs :: tl
    /\ calibrate_from_images image cvtColor_gray findChessboardCorners cornerSubPix
                             drawChessboardCorners calibrateCamera imread shape_hw
                             image_dir output_file size square (first :: rest) st
       = if Req_dec_T r 0
         then (mk_state c (trace st ++ prints
                             ++ [CalibrateCamera objs imgs sz;
                                 Print "Calibration failed"]),
               inr false)
         else (mk_state c (trace st ++ prints
                             ++ [CalibrateCamera objs imgs sz;
                                 WriteFile output_file
                                   (PDict [("camera_matrix"%string, tolist cm);
                                           ("dist_coeffs"%string, tolist dc);
                                           ("image_shape"%string,
                                            shape_0_2 (corners_array cs))]);
                                 Print ("Calibration saved to " ++ output_file)]),
               inr true).
Proof.
  intros imgs objs sz Hmany Hfirst.
  destruct (run_prefix image_dir output_file size square first rest st)
    as (prints & Hp & Heq).
  unfold run in Heq. fold imgs in Heq. unfold corners_of in Heq. fold imgs in Heq.
  destruct (collected_fields imgs (init size square))
    as (_ & _ & _ & _ & Himgs & Hobjs).
  cbn [imgpoints objpoints objp init app] in Himgs, Hobjs. fold objs in Hobjs.
  assert (Hhead : exists cs tl, imgs = corners_array cs :: tl).
  { pose proof (accepted_corners_are_corner_arrays size (first :: rest)) as Hall.
    unfold corners_of in Hall. fold imgs in Hall.
    destruct imgs as [| i0 tl]; [cbn in Hmany; lia |].
    inversion Hall as [| ? ? [cs ->] _]; subst. now exists cs, tl. }
  destruct Hhead as (cs & tl & Hhead).
  destruct (calibrateCamera objs imgs sz) as [[[[r cm] dc] rv] tv] eqn:Hsolve.
  set (st1 := mk_state (collected imgs (init size square)) (trace st ++ prints)) in *.
  assert (Hcal : calibrate calibrateCamera (shape_hw img0) st1
                 = (mk_state
                      (set_tvecs (Some tv)
                         (set_rvecs (Some rv)
                            (set_dist_coeffs (Some dc)
                               (set_camera_matrix (Some cm) (self st1)))))
                      (trace st1 ++ [CalibrateCamera objs imgs sz]),
                    inr (PFloat r))).
  { rewrite calibrate_run_solve.
    - cbn [self st1]. rewrite Hobjs, Himgs. fold sz. rewrite Hsolve. reflexivity.
    - cbn [self st1]. rewrite Hobjs. unfold objs. rewrite repeat_length. exact Hmany. }
  rewrite Heq.
  rewrite (bind_inr (ret _) _ _ _ _ eq_refl).
  apply Nat.ltb_ge in Hmany. rewrite Hmany.
  rewrite (bind_inr (imread_shape image imread shape_hw first) _ st1 st1 (shape_hw img0)).
  2:{ unfold imread_shape. rewrite Hfirst. reflexivity. }
  rewrite (bind_inr _ _ _ _ _ Hcal).
  unfold truthy.
  destruct (Req_dec_T r 0) as [Hr | Hr].
  - exists prints. eexists. exists cs, tl. split; [exact Hp |]. split; [exact Hhead |].
    rewrite (bind_inr _ _ _ _ tt (emit_run _ _)).
    cbn [self trace st1]. rewrite <- !app_assoc. reflexivity.
  - exists prints. eexists. exists cs, tl. split; [exact Hp |]. split; [exact Hhead |].
    erewrite bind_inr.
    2:{ apply (save_calibration_content output_file _ cm dc (corners_array cs) tl).
        - reflexivity.
        - reflexivity.
        - cbn [self st1 imgpoints set_tvecs set_rvecs set_dist_coeffs set_camera_matrix].
          rewrite Himgs. exact Hhead. }
    rewrite (bind_inr _ _ _ _ tt (emit_run _ _)).
    cbn [self trace st1]. rewrite <- !app_assoc. reflexivity.
Qed.

End BatchCalibration.

Lemma calibrate_from_images_insufficient_witness :
  exists prints c,
    Forall CalibrationBatch.is_print prints
    /\ BatchScenario.run BatchScenario.four_images
       = (mk_state c (trace CalibrationScenario.fresh ++ prints), inr false).
Proof.
  apply (calibrate_from_images_insufficient
           CalibrationScenario.image CalibrationScenario.cvtColor_gray
           CalibrationScenario.findChessboardCorners CalibrationScenario.cornerSubPix
           CalibrationScenario.drawChessboardCorners CalibrationScenario.calibrateCamera
           BatchScenario.imread BatchScenario.shape_hw).
  apply Nat.ltb_lt. reflexivity.
Defined.

Lemma calibrate_from_images_first_unreadable_witness :
  exists prints c,
    Forall CalibrationBatch.is_print prints
    /\ BatchScenario.run BatchScenario.unreadable_first
       = (mk_state c (trace CalibrationScenario.fresh ++ prints), inl AttributeError).
Proof.
  apply (calibrate_from_images_first_unreadable
           CalibrationScenario.image CalibrationScenario.cvtColor_gray
           CalibrationScenario.findChessboardCorners CalibrationScenario.cornerSubPix
           CalibrationScenario.drawChessboardCorners CalibrationScenario.calibrateCamera
           BatchScenario.imread BatchScenario.shape_hw).
  - apply Nat.leb_le. reflexivity.
  - reflexivity.
Defined.

Lemma calibrate_from_images_solves_witness :
  exists prints c,
    Forall CalibrationBatch.is_print prints
    /\ BatchScenario.run BatchScenario.five_images
       = (mk_state c
            (trace CalibrationScenario.fresh ++ prints
               ++ [CalibrateCamera
                     (repeat (make_objp (9%nat, 6%nat) (5 / 2))
                             (List.length (BatchScenario.usable BatchScenario.five_images)))
                     (BatchScenario.usable BatchScenario.five_images)
                     (640%nat, 480%nat);
                   WriteFile "assets/camera_calibration.json"
                     (PDict [("camera_matrix"%string,
                              tolist CalibrationScenario.solved_camera_matrix);
                             ("dist_coeffs"%string,
                              tolist CalibrationScenario.solved_dist_coeffs);
                             ("image_shape"%string, PList [PInt 54; PInt 1])]);
                   Print "Calibration saved to assets/camera_calibration.json"]),
          inr true).
Proof.
  pose proof (calibrate_from_images_solves
                CalibrationScenario.image CalibrationScenario.cvtColor_gray
                CalibrationScenario.findChessboardCorners CalibrationScenario.cornerSubPix
                CalibrationScenario.drawChessboardCorners CalibrationScenario.calibrateCamera
                BatchScenario.imread BatchScenario.shape_hw
                "assets/calibration" "assets/camera_calibration.json"
                (9%nat, 6%nat) (5 / 2) "a.jpg"
                ["b.jpg"; "c.jpg"; "d.jpg"; "e.png"]%string
                (480%nat, 640%nat) CalibrationScenario.fresh) as H.
  cbv zeta in H.
  assert (Hmany : (5 <= List.length
                          (CalibrationBatch.accepted_corners
                             CalibrationScenario.image CalibrationScenario.cvtColor_gray
                             CalibrationScenario.findChessboardCorners
                             CalibrationScenario.cornerSubPix BatchScenario.imread
                             (9%nat, 6%nat)
                             ["a.jpg"; "b.jpg"; "c.jpg"; "d.jpg"; "e.png"]%string))%nat)
    by (apply Nat.leb_le; reflexivity).
  specialize (H Hmany eq_refl).
  unfold CalibrationScenario.calibrateCamera at 1 in H.
  destruct (Req_dec_T (1 / 2) 0) as [E | _]; [lra |].
  destruct H as (prints & c & cs & tl & Hp & Hhead & Hrun).
  exists prints, c. split; [exact Hp |].
  assert (E : option_map shape_0_2
                (hd_error (BatchScenario.usable BatchScenario.five_images))
              = Some (PList [PInt 54; PInt 1])) by (vm_compute; reflexivity).
  unfold BatchScenario.usable, BatchScenario.five_images in E.
  rewrite Hhead in E. cbn [hd_error option_map] in E.
  injection E as E.
  rewrite <- E. exact Hrun.
Defined.

(* ================================================================== *)
(** * Saving and loading a calibration *)
(* ================================================================== *)

Section ArrayRoundTrip.

Import CalibrationFacts.

(** The per-element conversion inside [np_array] on a list. *)
Let each : list pyval -> option (list ndarray) :=
  fix each (l : list pyval) : option (list ndarray) :=
    match l with
    | [] => Some []
    | e :: rest =>
        match np_array e, each rest with
        | Some a, Some rs => Some (a :: rs)
        | _, _ => None
        end
    end.

Lemma np_array_list (l : list pyval) :
  np_array (PList l)
  = match each l with
    | None => None
    | Some [] => Some (mk_ndarray [0%nat] [])
    | Some (a :: rs) =>
        if forallb (fun b => shape_eqb (shape b) (shape a)) rs
        then Some (mk_ndarray (List.length l :: shape a)
                              (List.concat (map items (a :: rs))))
        else None
    end.
Proof. reflexivity. Qed.

Lemma each_map {A : Type} (f : A -> pyval) (g : A -> ndarray) (cs : list A) :
  (forall c, In c cs -> np_array (f c) = Some (g c)) ->
  each (map f cs) = Some (map g cs).
Proof.
  induction cs as [| c cs IH]; intros H; cbn.
  - reflexivity.
  - rewrite (H c) by now left.
    fold each. rewrite IH by (intros c' Hc'; apply H; now right).
    reflexivity.
Qed.

Lemma chunks_length {A : Type} (n size : nat) (l : list A) :
  List.length (chunks n size l) = n.
Proof.
  revert l. induction n as [| n IH]; intros l; cbn; [reflexivity | now rewrite IH].
Qed.

Lemma chunks_concat {A : Type} (n size : nat) (l : list A) :
  List.length l = (n * size)%nat -> List.concat (chunks n size l) = l.
Proof.
  revert l. induction n as [| n IH]; intros l Hl; cbn.
  - destruct l; [reflexivity | discriminate].
  - rewrite IH.
    + apply firstn_skipn.
    + rewrite length_skipn. lia.
Qed.

Lemma chunks_each {A : Type} (P : A -> Prop) (n size : nat) (l : list A) :
  List.length l = (n * size)%nat -> Forall P l ->
  forall c, In c (chunks n size l) -> List.length c = size /\ Forall P c.
Proof.
  revert l. induction n as [| n IH]; intros l Hl HP c; cbn.
  - intros [].
  - pose proof HP as HP'. rewrite <- (firstn_skipn size l) in HP'.
    apply Forall_app in HP' as [Hfirst Hskip].
    intros [<- | Hin].
    + split; [rewrite length_firstn; lia | exact Hfirst].
    + apply (IH (skipn size l)); [rewrite length_skipn; lia | exact Hskip | exact Hin].
Qed.

Lemma shape_eqb_refl (s : list nat) : shape_eqb s s = true.
Proof. unfold shape_eqb. destruct (list_eq_dec Nat.eq_dec s s); congruence. Qed.

(** [np.array(a.tolist())] gives [a] back. *)
Lemma np_array_tolist_items (sh : list nat) (its : list pyval) :
  Forall (fun n => (0 < n)%nat) sh ->
  List.length its = fold_right Nat.mul 1%nat sh ->
  Forall is_scalar its ->
  np_array (tolist_items sh its) = Some (mk_ndarray sh its).
Proof.
  revert its. induction sh as [| n rest IH]; intros its Hpos Hlen Hsc.
  - cbn in Hlen. destruct its as [| v [| ? ?]]; try discriminate.
    cbn. inversion Hsc as [| ? ? Hv _]; subst.
    destruct v; try reflexivity. destruct Hv.
  - inversion Hpos as [| ? ? Hn Hrest]; subst.
    cbn [tolist_items]. cbn [fold_right] in Hlen.
    set (size := fold_right Nat.mul 1%nat rest) in *.
    rewrite np_array_list.
    rewrite (each_map (tolist_items rest) (mk_ndarray rest)).
    2:{ intros c Hc.
        destruct (chunks_each is_scalar n size its Hlen Hsc c Hc) as [Hl Hs].
        apply IH; assumption. }
    rewrite length_map, chunks_length.
    destruct n as [| n]; [lia |].
    cbn [chunks map].
    replace (forallb _ _) with true.
    + cbn [shape]. do 2 f_equal.
      transitivity (List.concat (chunks (S n) size its));
        [| apply chunks_concat; exact Hlen].
      cbn [chunks map List.concat items]. f_equal.
      rewrite map_map. cbn [items]. rewrite map_id. reflexivity.
    + symmetry. apply forallb_forall. intros b Hb.
      apply in_map_iff in Hb as (c & <- & _). cbn [shape]. apply shape_eqb_refl.
Qed.

Lemma np_array_tolist (a : ndarray) :
  well_shaped a -> np_array (tolist a) = Some a.
Proof.
  intros (Hpos & Hlen & Hsc). unfold tolist.
  rewrite np_array_tolist_items by assumption.
  destruct a; reflexivity.
Qed.

End ArrayRoundTrip.

Import CalibrationFacts.

Lemma load_calibration_success (data cmv dcv : pyval) (cm dc : ndarray) (st : state) :
  getitem data "camera_matrix" = inr cmv -> np_array cmv = Some cm ->
  getitem data "dist_coeffs" = inr dcv -> np_array dcv = Some dc ->
  load_calibration (inr data) st
  = (mk_state (set_dist_coeffs (Some dc) (set_camera_matrix (Some cm) (self st)))
              (trace st),
     inr true).
Proof.
  intros H Hnp H' Hnp'.
  unfold load_calibration, try_except, bind, lift, np_array_m.
  rewrite H, Hnp. cbn. rewrite H'. cbn. rewrite Hnp'. reflexivity.
Qed.

(** X14. Save then load is a round trip for the model: when a calibrator
    holding well-shaped arrays saves, loading the written content into any
    calibrator succeeds and stores the same camera matrix and distortion
    coefficients. *)
Theorem save_load_round_trip
        (filename : string) (st : state) (cm dc i0 : ndarray) (rest : list ndarray) :
  camera_matrix (self st) = Some cm ->
  dist_coeffs (self st) = Some dc ->
  imgpoints (self st) = i0 :: rest ->
  well_shaped cm -> well_shaped dc ->
  exists content,
    save_calibration filename st
    = (mk_state (self st) (trace st ++ [WriteFile filename content]), inr true)
    /\ forall st',
        load_calibration (inr content) st'
        = (mk_state (set_dist_coeffs (Some dc)
                       (set_camera_matrix (Some cm) (self st')))
                    (trace st'),
           inr true).
Proof.
  intros Hcm Hdc Himg Hwcm Hwdc.
  eexists. split.
  - apply (save_calibration_content filename st cm dc i0 rest Hcm Hdc Himg).
  - intros st'.
    apply (load_calibration_success _ (tolist cm) (tolist dc)).
    + reflexivity.
    + apply np_array_tolist. exact Hwcm.
    + reflexivity.
    + apply np_array_tolist. exact Hwdc.
Qed.

Lemma scenario_arrays_well_shaped :
  well_shaped CalibrationScenario.solved_camera_matrix
  /\ well_shaped CalibrationScenario.solved_dist_coeffs.
Proof.
  split; (split; [| split]); cbn; try reflexivity;
    repeat constructor.
Qed.

Lemma save_load_round_trip_witness :
  exists content,
    save_calibration "camera_calibration.json"
                     (fst (CalibrationScenario.calibrate_after 5))
    = (mk_state (self (fst (CalibrationScenario.calibrate_after 5)))
                (trace (fst (CalibrationScenario.calibrate_after 5))
                   ++ [WriteFile "camera_calibration.json" content]),
       inr true)
    /\ forall st',
        load_calibration (inr content) st'
        = (mk_state (set_dist_coeffs (Some CalibrationScenario.solved_dist_coeffs)
                       (set_camera_matrix (Some CalibrationScenario.solved_camera_matrix)
                          (self st')))
                    (trace st'),
           inr true).
Proof.
  eapply (save_load_round_trip "camera_calibration.json"
            (fst (CalibrationScenario.calibrate_after 5))).
  - reflexivity.
  - reflexivity.
  - reflexivity.
  - exact (proj1 scenario_arrays_well_shaped).
  - exact (proj2 scenario_arrays_well_shaped).
Defined.

(** X16. A loaded calibration cannot be saved again: after a successful
    [load_calibration] into a calibrator without accepted images,
    [save_calibration] raises [IndexError] and writes nothing. *)
Theorem save_after_load_raises
        (filename : string) (data cmv dcv : pyval) (cm dc : ndarray) (st : state) :
  imgpoints (self st) = [] ->
  getitem data "camera_matrix" = inr cmv -> np_array cmv = Some cm ->
  getitem data "dist_coeffs" = inr dcv -> np_array dcv = Some dc ->
  bind (load_calibration (inr data)) (fun _ => save_calibration filename) st
  = (mk_state (set_dist_coeffs (Some dc) (set_camera_matrix (Some cm) (self st)))
              (trace st),
     inl IndexError).
Proof.
  intros Himg H Hnp H' Hnp'.
  rewrite (bind_inr _ _ _ _ _ (load_calibration_success data cmv dcv cm dc st H Hnp H' Hnp')).
  unfold save_calibration, bind, get_self; cbn.
  rewrite Himg. reflexivity.
Qed.

Lemma save_after_load_raises_witness :
  let data :=
    PDict [("camera_matrix"%string, tolist CalibrationScenario.solved_camera_matrix);
           ("dist_coeffs"%string, tolist CalibrationScenario.solved_dist_coeffs);
           ("image_shape"%string, PList [PInt 54; PInt 1])] in
  bind (load_calibration (inr data))
       (fun _ => save_calibration "camera_calibration.json")
       CalibrationScenario.fresh
  = (mk_state (set_dist_coeffs (Some CalibrationScenario.solved_dist_coeffs)
                 (set_camera_matrix (Some CalibrationScenario.solved_camera_matrix)
                    (self CalibrationScenario.fresh)))
              [],
     inl IndexError).
Proof.
  intros data.
  apply (save_after_load_raises "camera_calibration.json" data
           (tolist CalibrationScenario.solved_camera_matrix)
           (tolist CalibrationScenario.solved_dist_coeffs)).
  - reflexivity.
  - reflexivity.
  - apply np_array_tolist. exact (proj1 scenario_arrays_well_shaped).
  - reflexivity.
  - apply np_array_tolist. exact (proj2 scenario_arrays_well_shaped).
Defined.

Section DatasetInvariant.

Variable image : Type.
Variable cvtColor_gray : image -> image.
Variable findChessboardCorners : image -> nat * nat -> option (list (R * R)).
Variable cornerSubPix : image -> list (R * R) -> list (R * R).
Variable drawChessboardCorners : image -> nat * nat -> list (R * R) -> image.
Variable calibrateCamera :
  list ndarray -> list ndarray -> nat * nat ->
  R * ndarray * ndarray * list ndarray * list ndarray.
Variable undistort : image -> ndarray -> option ndarray -> image.

Lemma dataset_ok_setters (c : CameraCalibrator)
      (cm dc : option ndarray) (rv tv : option (list ndarray)) :
  dataset_ok c ->
  dataset_ok (set_camera_matrix cm c)
  /\ dataset_ok (set_dist_coeffs dc c)
  /\ dataset_ok (set_rvecs rv c)
  /\ dataset_ok (set_tvecs tv c).
Proof. intros H. repeat split; apply H. Qed.

Lemma dataset_ok_append (c : CameraCalibrator) (corners : list (R * R)) :
  dataset_ok c -> dataset_ok (append_points (objp c) (corners_array corners) c).
Proof.
  intros (Hlen & Hobj & Himg). unfold dataset_ok; cbn.
  rewrite !length_app; cbn. repeat split.
  - lia.
  - apply Forall_app. split; [exact Hobj | repeat constructor].
  - apply Forall_app. split; [exact Himg |].
    constructor; [now exists corners | constructor].
Qed.

(** X15. The dataset of a calibrator stays consistent: a new calibrator has
    an empty one, and after any method call there are as many object-point
    sets as image-point arrays, each object-point set is the board template
    and each image-point array is a corner array. *)
Theorem dataset_invariant (st : state) :
  (forall size square, dataset_ok (init size square))
  /\ (dataset_ok (self st) ->
      (forall img,
          dataset_ok (self (fst (add_calibration_image
                                   image cvtColor_gray findChessboardCorners
                                   cornerSubPix drawChessboardCorners img st))))
      /\ (forall image_shape,
             dataset_ok (self (fst (calibrate calibrateCamera image_shape st))))
      /\ (forall filename, dataset_ok (self (fst (save_calibration filename st))))
      /\ (forall file, dataset_ok (self (fst (load_calibration file st))))
      /\ (forall img,
             dataset_ok (self (fst (CalibrationBatch.undistort_image
                                      image undistort img st))))).
Proof.
  split.
  - intros size square. unfold dataset_ok; cbn. repeat split; constructor.
  - intros Hok.
    pose proof (fun cm dc rv tv c H => dataset_ok_setters c cm dc rv tv H) as Hset.
    split; [| split; [| split; [| split]]].
    + intros img.
      unfold add_calibration_image, bind, get_self, update, ret.
      destruct (findChessboardCorners (cvtColor_gray img) (chessboard_size (self st)));
        cbn; [apply dataset_ok_append | ]; exact Hok.
    + intros image_shape. unfold calibrate, bind, get_self.
      destruct (List.length (objpoints (self st)) <? 5)%nat; cbn; [exact Hok |].
      destruct (calibrateCamera _ _ _) as [[[[r cm] dc] rv] tv]. cbn.
      apply (Hset None None None (Some tv)), (Hset None None (Some rv) None),
        (Hset None (Some dc) None None), (Hset (Some cm) None None None), Hok.
    + intros filename. unfold save_calibration, bind, get_self.
      destruct (camera_matrix (self st)); cbn; [| exact Hok].
      destruct (dist_coeffs (self st)); cbn; [| exact Hok].
      destruct (imgpoints (self st)) eqn:E; cbn; exact Hok.
    + intros file. unfold load_calibration, try_except, bind, lift, np_array_m.
      destruct file as [e | data]; cbn; [exact Hok |].
      destruct (getitem data "camera_matrix") as [e | cmv]; cbn; [exact Hok |].
      destruct (np_array cmv) as [cm |]; cbn; [| exact Hok].
      destruct (getitem data "dist_coeffs") as [e | dcv]; cbn;
        [apply (Hset (Some cm) None None None), Hok |].
      destruct (np_array dcv) as [dc |]; cbn.
      * apply (Hset None (Some dc) None None), (Hset (Some cm) None None None), Hok.
      * apply (Hset (Some cm) None None None), Hok.
    + intros img. unfold CalibrationBatch.undistort_image, bind, get_self.
      destruct (camera_matrix (self st)); cbn; exact Hok.
Qed.

End DatasetInvariant.

Lemma dataset_invariant_witness :
  dataset_ok
    (self (fst (CalibrationScenario.add (480%nat, 640%nat) CalibrationScenario.fresh))).
Proof.
  apply (proj1 (proj2 (dataset_invariant
                         CalibrationScenario.image CalibrationScenario.cvtColor_gray
                         CalibrationScenario.findChessboardCorners
                         CalibrationScenario.cornerSubPix
                         CalibrationScenario.drawChessboardCorners
                         CalibrationScenario.calibrateCamera
                         (fun img _ _ => img) CalibrationScenario.fresh)
                      (proj1 (dataset_invariant
                                CalibrationScenario.image CalibrationScenario.cvtColor_gray
                                CalibrationScenario.findChessboardCorners
                                CalibrationScenario.cornerSubPix
                                CalibrationScenario.drawChessboardCorners
                                CalibrationScenario.calibrateCamera
                                (fun img _ _ => img) CalibrationScenario.fresh)
                             (9%nat, 6%nat) (5 / 2)))).
Defined.

(* ================================================================== *)
(** * Recording a session frame *)
(* ================================================================== *)

Lemma string_of_nat_inj (i j : nat) :
  PyFormat.string_of_nat i = PyFormat.string_of_nat j -> i = j.
Proof.
  unfold PyFormat.string_of_nat. intros H.
  apply (f_equal NilEmpty.uint_of_string) in H.
  rewrite !NilEmpty.usu in H. injection H as H.
  apply (f_equal Nat.of_uint) in H.
  now rewrite !Unsigned.of_to in H.
Qed.

Lemma joint_name_inj (i j : nat) : Main.joint_name i = Main.joint_name j -> i = j.
Proof.
  unfold Main.joint_name. cbn. intros H.
  injection H as H. apply string_of_nat_inj. exact H.
Qed.

Lemma NoDup_map_injective {A B : Type} (f : A -> B) (l : list A) :
  (forall a b, f a = f b -> a = b) -> NoDup l -> NoDup (map f l).
Proof.
  intros Hinj Hnd. induction Hnd as [| a l Ha Hnd IH]; cbn; constructor.
  - intros Hin. apply in_map_iff in Hin as (b & Hb & Hin).
    apply Hinj in Hb. subst. contradiction.
  - exact IH.
Qed.

Section KeypointDict.

Import PyDict.

Let conv (kp : Z * Z * R * R) : keypoint :=
  let '(kx, ky, kz, kvis) := kp in mk_keypoint (IZR kx) (IZR ky) kz kvis.

Let entry (ikp : nat * (Z * Z * R * R)) : string * keypoint :=
  (Main.joint_name (fst ikp), conv (snd ikp)).

Lemma indexed_fill (l : list (nat * (Z * Z * R * R))) (acc : frame) :
  NoDup (map fst l) ->
  (forall i, In i (map fst l) -> ~ In (Main.joint_name i) (keys acc)) ->
  fold_left
    (fun d '(i, (kx, ky, kz, kvis)) =>
       set (Main.joint_name i) (mk_keypoint (IZR kx) (IZR ky) kz kvis) d)
    l acc
  = acc ++ map entry l.
Proof.
  revert acc. induction l as [| [i [[[kx ky] kz] kv]] l IH]; intros acc Hnd Hfresh; cbn.
  - now rewrite app_nil_r.
  - cbn in Hnd. inversion Hnd as [| ? ? Hi Hnd']; subst.
    rewrite set_fresh by (apply Hfresh; now left).
    rewrite IH.
    + rewrite <- app_assoc. reflexivity.
    + exact Hnd'.
    + intros j Hj. unfold keys. rewrite map_app, in_app_iff. cbn.
      intros [Hacc | [E | []]].
      * apply (Hfresh j); [now right | exact Hacc].
      * apply joint_name_inj in E. subst. contradiction.
Qed.

Lemma keypoint_dict_items (kps : list (Z * Z * R * R)) :
  Main.keypoint_dict kps = map entry (combine (seq 0 (List.length kps)) kps).
Proof.
  unfold Main.keypoint_dict. rewrite indexed_fill.
  - reflexivity.
  - assert (E : map fst (combine (seq 0 (List.length kps)) kps)
                = seq 0 (List.length kps)).
    { generalize 0%nat. induction kps as [| kp kps IH]; intros s; cbn;
        [reflexivity | now rewrite IH]. }
    rewrite E. apply seq_NoDup.
  - intros i _ [].
Qed.

Lemma entries_keys (kps : list (Z * Z * R * R)) (s : nat) :
  keys (map entry (combine (seq s (List.length kps)) kps))
  = map Main.joint_name (seq s (List.length kps)).
Proof.
  revert s. induction kps as [| kp kps IH]; intros s; cbn.
  - reflexivity.
  - f_equal. apply IH.
Qed.

Lemma entries_get (kps : list (Z * Z * R * R)) (s i : nat) :
  get (Main.joint_name (s + i)) (map entry (combine (seq s (List.length kps)) kps))
  = option_map conv (nth_error kps i).
Proof.
  revert s i. induction kps as [| kp kps IH]; intros s i; cbn [List.length seq combine map].
  - destruct i; reflexivity.
  - cbn [get entry fst snd].
    destruct i as [| i].
    + rewrite Nat.add_0_r, String.eqb_refl. reflexivity.
    + destruct (String.eqb_spec (Main.joint_name (s + S i)) (Main.joint_name s))
        as [E | _].
      * apply joint_name_inj in E. lia.
      * replace (s + S i)%nat with (S s + i)%nat by lia. cbn [nth_error]. apply IH.
Qed.

(** X17. The frame recorded for a list of keypoints is a well-formed
    dictionary whose keys are [joint_0], [joint_1], ... in order, one per
    keypoint, and looking up [joint_i] gives the [i]-th keypoint. *)
Theorem keypoint_dict_frame (kps : list (Z * Z * R * R)) :
  wf (Main.keypoint_dict kps)
  /\ keys (Main.keypoint_dict kps) = map Main.joint_name (seq 0 (List.length kps))
  /\ forall i,
      get (Main.joint_name i) (Main.keypoint_dict kps)
      = option_map
          (fun kp => let '(kx, ky, kz, kvis) := kp in
                     mk_keypoint (IZR kx) (IZR ky) kz kvis)
          (nth_error kps i).
Proof.
  rewrite keypoint_dict_items.
  assert (Hkeys := entries_keys kps 0).
  split; [| split].
  - unfold wf. rewrite Hkeys.
    apply NoDup_map_injective; [apply joint_name_inj | apply seq_NoDup].
  - exact Hkeys.
  - intros i. apply (entries_get kps 0 i).
Qed.

End KeypointDict.

Lemma int_of_float_bounds (r : R) (w : Z) :
  0 <= r < IZR w -> (0 <= PoseEstimation.int_of_float r < w)%Z.
Proof.
  intros [H0 Hw]. unfold PoseEstimation.int_of_float.
  destruct (Rle_dec 0 r) as [_ | N]; [| contradiction].
  destruct (base_Int_part r) as [Hle Hgt].
  split.
  - assert (H : (-1 < Int_part r)%Z) by (apply lt_IZR; lra). lia.
  - apply lt_IZR. lra.
Qed.

(** X18. [get_keypoints] returns [None] when no pose was detected and
    otherwise one keypoint per landmark, in order, keeping [z] and the
    visibility; a landmark whose normalised coordinates lie in [0, 1) gets a
    pixel position inside a frame of positive width and height. *)
Theorem get_keypoints_pixels
        (landmarks : list PoseEstimation.landmark) (w h : Z) :
  (0 < w)%Z -> (0 < h)%Z ->
  PoseEstimation.get_keypoints None w h = None
  /\ exists kps,
      PoseEstimation.get_keypoints (Some landmarks) w h = Some kps
      /\ List.length kps = List.length landmarks
      /\ forall i lm,
          nth_error landmarks i = Some lm ->
          exists px py,
            nth_error kps i
            = Some (px, py, PoseEstimation.z lm, PoseEstimation.visibility lm)
            /\ (0 <= PoseEstimation.x lm < 1 -> (0 <= px < w)%Z)
            /\ (0 <= PoseEstimation.y lm < 1 -> (0 <= py < h)%Z).
Proof.
  intros Hw Hh. split; [reflexivity |].
  unfold PoseEstimation.get_keypoints.
  rewrite (fold_left_snoc _
             (fun lm => (PoseEstimation.int_of_float (PoseEstimation.x lm * IZR w),
                         PoseEstimation.int_of_float (PoseEstimation.y lm * IZR h),
                         PoseEstimation.z lm, PoseEstimation.visibility lm)))
    by reflexivity.
  cbn [app]. eexists. split; [reflexivity | split].
  - apply length_map.
  - intros i lm Hi. do 2 eexists. split.
    + rewrite nth_error_map, Hi. reflexivity.
    + assert (HW : 0 < IZR w) by (apply IZR_lt; exact Hw).
      assert (HH : 0 < IZR h) by (apply IZR_lt; exact Hh).
      split; intros Hx; apply int_of_float_bounds; nra.
Qed.

Lemma get_keypoints_pixels_witness :
  exists kps,
    PoseEstimation.get_keypoints
      (Some [PoseEstimation.mk_landmark (1 / 2) (1 / 4) 0 1]) 640 480 = Some kps
    /\ List.length kps = 1%nat.
Proof.
  destruct (proj2 (get_keypoints_pixels
                     [PoseEstimation.mk_landmark (1 / 2) (1 / 4) 0 1] 640 480
                     eq_refl eq_refl)) as (kps & Hk & Hl & _).
  exists kps. split; [exact Hk | exact Hl].
Defined.

(* ================================================================== *)
(** * Point-cloud export *)
(* ================================================================== *)

Import StereoUtilsPly.

Lemma vertex_lines_of_vertices (pcs : list (point3 * (Z * Z * Z))) :
  vertex_lines (map (fun pc => Vertex (fst pc) (snd pc)) pcs)
  = map (fun pc => Vertex (fst pc) (snd pc)) pcs.
Proof.
  unfold vertex_lines. induction pcs as [| pc pcs IH]; cbn;
    [reflexivity | now rewrite IH].
Qed.

(** X19. [save_point_cloud] writes a header that declares
    [len(points_3d)] vertices, followed by one vertex line per zipped
    point and colour, in order; the number of vertex lines is the smaller of
    the two lengths, so the declared count is the written count exactly when
    there are at least as many colours as points. *)
Theorem save_point_cloud_counts
        (points_3d : list point3) (colors : list (Z * Z * Z)) :
  declared_count (save_point_cloud points_3d colors) = Some (List.length points_3d)
  /\ vertex_lines (save_point_cloud points_3d colors)
     = map (fun pc => Vertex (fst pc) (snd pc)) (combine points_3d colors)
  /\ List.length (vertex_lines (save_point_cloud points_3d colors))
     = Nat.min (List.length points_3d) (List.length colors)
  /\ (declared_count (save_point_cloud points_3d colors)
      = Some (List.length (vertex_lines (save_point_cloud points_3d colors)))
      <-> (List.length points_3d <= List.length colors)%nat).
Proof.
  assert (Hbody : save_point_cloud points_3d colors
                  = [Header "ply"; Header "format ascii 1.0";
                     ElementVertex (List.length points_3d);
                     Header "property float x"; Header "property float y";
                     Header "property float z"; Header "property uchar red";
                     Header "property uchar green"; Header "property uchar blue";
                     Header "end_header"]
                    ++ map (fun pc => Vertex (fst pc) (snd pc))
                           (combine points_3d colors)).
  { unfold save_point_cloud. f_equal.
    rewrite (fold_left_snoc _ (fun pc => Vertex (fst pc) (snd pc))).
    - reflexivity.
    - intros r [p c]. reflexivity. }
  assert (Hdecl : declared_count (save_point_cloud points_3d colors)
                  = Some (List.length points_3d)).
  { rewrite Hbody. clear Hbody.
    unfold declared_count. rewrite fold_left_app. cbn [fold_left].
    generalize (Some (List.length points_3d)).
    induction (combine points_3d colors) as [| pc l IH]; intros r; cbn;
      [reflexivity | exact (IH r)]. }
  assert (Hv : vertex_lines (save_point_cloud points_3d colors)
               = map (fun pc => Vertex (fst pc) (snd pc)) (combine points_3d colors)).
  { rewrite Hbody. unfold vertex_lines. rewrite filter_app. cbn [filter app].
    apply vertex_lines_of_vertices. }
  assert (Hlen : List.length (vertex_lines (save_point_cloud points_3d colors))
                 = Nat.min (List.length points_3d) (List.length colors)).
  { rewrite Hv, length_map, length_combine. reflexivity. }
  split; [exact Hdecl | split; [exact Hv | split; [exact Hlen |]]].
  rewrite Hdecl, Hlen. split.
  - intros H. injection H as H. lia.
  - intros H. f_equal. lia.
Qed.

(* ================================================================== *)
(** * From a recorded session to triangulated poses *)
(* ================================================================== *)

Lemma keypoint_dict_keys (kps : list (Z * Z * R * R)) :
  PyDict.keys (Main.keypoint_dict kps)
  = map Main.joint_name (seq 0 (List.length kps)).
Proof.
  rewrite keypoint_dict_items. apply (entries_keys kps 0).
Qed.

Lemma keypoint_dict_wf (kps : list (Z * Z * R * R)) :
  PyDict.wf (Main.keypoint_dict kps).
Proof.
  unfold PyDict.wf. rewrite keypoint_dict_keys.
  apply NoDup_map_injective; [apply joint_name_inj | apply seq_NoDup].
Qed.

Lemma record_session_frames (detections : list (option (list (Z * Z * R * R))))
      (acc : list frame) :
  fold_left Main.log_keypoints detections acc
  = acc ++ map (fun d => match d with
                         | Some kps => Main.keypoint_dict kps
                         | None => []
                         end)
               (filter MainSession.detected detections).
Proof.
  revert acc. induction detections as [| d ds IH]; intros acc; cbn.
  - now rewrite app_nil_r.
  - rewrite IH. destruct d as [[| kp kps] |]; cbn; try reflexivity.
    now rewrite <- app_assoc.
Qed.

Lemma triangulate_flipped_nth
      (svd : mat4 -> vec4) (view : list frame) (w : R) (M1 M2 : cam_matrix)
      (i : nat) (fr : frame) :
  PyDict.wf fr ->
  nth_error view i = Some fr ->
  exists joints,
    nth_error (triangulate_all_frames svd view (simulate_second_view view w) M1 M2) i
    = Some joints
    /\ PyDict.keys joints = PyDict.keys fr.
Proof.
  intros Hfr Hi.
  rewrite triangulate_all_frames_map, simulate_second_view_map.
  exists (triangulate_frame svd fr (flip_keypoints_horizontally fr w) M1 M2).
  split.
  - rewrite nth_error_map.
    rewrite (nth_error_combine _ _ i fr (flip_keypoints_horizontally fr w)).
    + reflexivity.
    + exact Hi.
    + rewrite nth_error_map, Hi. reflexivity.
  - rewrite triangulate_frame_keys by exact Hfr.
    apply filter_all_true. intros k Hk.
    apply mem_true_iff. rewrite flip_keypoints_keys by exact Hfr. exact Hk.
Qed.

(** X20. The recording-to-triangulation pipeline keeps every joint: the
    session recorded by [main] has one well-formed frame per grabbed frame
    with keypoints, and triangulating it against its simulated second view
    gives, for each frame, a joint map with the same keys [joint_0] ...
    [joint_(n-1)] in the same order. *)
Theorem recorded_session_triangulates
        (svd : mat4 -> vec4) (detections : list (option (list (Z * Z * R * R))))
        (w : R) (M1 M2 : cam_matrix) :
  let session := MainSession.record_session detections in
  Forall PyDict.wf session
  /\ List.length session = List.length (filter MainSession.detected detections)
  /\ forall i fr,
      nth_error session i = Some fr ->
      exists n joints,
        (0 < n)%nat
        /\ PyDict.keys fr = map Main.joint_name (seq 0 n)
        /\ nth_error (triangulate_all_frames svd session
                        (simulate_second_view session w) M1 M2) i
           = Some joints
        /\ PyDict.keys joints = map Main.joint_name (seq 0 n).
Proof.
  intros session.
  assert (Hs : session
               = map (fun d => match d with
                               | Some kps => Main.keypoint_dict kps
                               | None => []
                               end)
                     (filter MainSession.detected detections)).
  { unfold session, MainSession.record_session.
    rewrite record_session_frames. reflexivity. }
  assert (Hframe : forall fr, In fr session ->
                              exists kp kps, fr = Main.keypoint_dict (kp :: kps)).
  { intros fr Hin. rewrite Hs in Hin.
    apply in_map_iff in Hin as (d & <- & Hd).
    apply filter_In in Hd as [_ Hd].
    destruct d as [[| kp kps] |]; try discriminate. now exists kp, kps. }
  split; [| split].
  - apply Forall_forall. intros fr Hin.
    destruct (Hframe fr Hin) as (kp & kps & ->). apply keypoint_dict_wf.
  - rewrite Hs. apply length_map.
  - intros i fr Hi.
    destruct (Hframe fr (nth_error_In _ _ Hi)) as (kp & kps & ->).
    destruct (triangulate_flipped_nth svd session w M1 M2 i _
                (keypoint_dict_wf (kp :: kps)) Hi) as (joints & Hj & Hk).
    exists (List.length (kp :: kps)), joints.
    split; [cbn; lia | split; [apply keypoint_dict_keys | split; [exact Hj |]]].
    rewrite Hk. apply keypoint_dict_keys.
Qed.
